(** * hapless: the job registry and lifecycle engine of [hapless/main.py]

    A shallow embedding of class [Hapless]: the registry directory is a
    finite map from entry names to the marker files of a record, the OS
    process table a finite map from pids to process states, and every
    method of the class a function over that world. *)

From Stdlib Require Import Ascii.
From stdpp Require Import gmap strings list fin_maps sorting pretty.

Local Open Scope string_scope.

(** ** Strings: [str.isdigit], [int], [str.strip]

    Strings are byte strings; only the ASCII digits count as digits and
    only the ASCII white space as white space. *)

Definition is_digit_char (c : ascii) : bool :=
  ((48 <=? N_of_ascii c) && (N_of_ascii c <=? 57))%N.

Fixpoint all_digits (s : string) : bool :=
  match s with
  | EmptyString => true
  | String c s' => is_digit_char c && all_digits s'
  end.

(** [str.isdigit]: at least one character and all of them digits. *)
Definition isdigit (s : string) : bool :=
  match s with
  | EmptyString => false
  | _ => all_digits s
  end.

Definition digit_val (c : ascii) : N := (N_of_ascii c - 48)%N.

Fixpoint int_acc (acc : N) (s : string) : N :=
  match s with
  | EmptyString => acc
  | String c s' => int_acc (acc * 10 + digit_val c)%N s'
  end.

(** [int] on a string of digits (the only strings [main.py] applies it to). *)
Definition int (s : string) : N := int_acc 0 s.

Definition is_space_char (c : ascii) : bool :=
  let n := N_of_ascii c in
  (((9 <=? n) && (n <=? 13)) || ((28 <=? n) && (n <=? 32)))%N.

Fixpoint lstrip (s : string) : string :=
  match s with
  | EmptyString => EmptyString
  | String c s' => if is_space_char c then lstrip s' else s
  end.

Fixpoint rstrip (s : string) : string :=
  match s with
  | EmptyString => EmptyString
  | String c s' =>
      match rstrip s' with
      | EmptyString => if is_space_char c then EmptyString else String c EmptyString
      | r => String c r
      end
  end.

Definition strip (s : string) : string := rstrip (lstrip s).

(** ** The world: registry directory and process table *)

(** The marker files of one entry of the registry directory. *)
Record HapFiles := mkFiles {
  name_file : option string;
  cmd_file : string;
  pid_file : option Z;
  rc_file : option Z;
  stdout_file : option string;
  stderr_file : option string
}.

(** [psutil]'s process statuses, as far as the code tells them apart. *)
Inductive ProcStatus :=
| STATUS_RUNNING
| STATUS_SLEEPING
| STATUS_STOPPED
| STATUS_ZOMBIE.

Global Instance ProcStatus_eq_dec : EqDecision ProcStatus.
Proof. solve_decision. Defined.

Record World := mkWorld {
  fs : gmap string HapFiles;
  procs : gmap Z ProcStatus
}.

(** A [Hap] object is a handle on a path below the registry directory;
    every property reads the files again. *)
Record Hap := mkHap { hid : string }.

Global Instance Hap_eq_dec : EqDecision Hap.
Proof. solve_decision. Defined.

Global Instance hid_inj : Inj (=) (=) hid.
Proof. intros [a] [b]. simpl. by intros ->. Qed.

Global Instance mkHap_inj : Inj (=) (=) mkHap.
Proof. by intros a b [= ->]. Qed.

(** ** Registry *)

(** [os.listdir]: the names of the entries, in no particular order. *)
Definition listdir (w : World) : list string := (map_to_list (fs w)).*1.

Definition int_le (a b : string) : Prop := (int a ≤ int b)%N.

Global Instance int_le_dec : RelDecision int_le.
Proof. intros a b. unfold int_le. apply _. Defined.

Global Instance int_le_total : Total int_le.
Proof. intros a b. unfold int_le. lia. Qed.

Global Instance int_le_trans : Transitive int_le.
Proof. intros a b c. unfold int_le. lia. Qed.

(** [_get_hap_dirs]: [sorted(filter(str.isdigit, os.listdir(dir)), key=int)].
    Entries with the same [int] (such as "1" and "01") come in the order
    the sort leaves them in; [os.listdir] fixes none. *)
Definition _get_hap_dirs (w : World) : list string :=
  merge_sort int_le (filter (λ d, isdigit d) (listdir w)).

(** One iteration of the loop of [_get_hap_names_map]. *)
Definition names_step (w : World) (names : gmap string string) (dir : string)
  : gmap string string :=
  match fs w !! dir with
  | Some f =>
      match name_file f with
      | Some raw => <[strip raw := dir]> names
      | None => names
      end
  | None => names
  end.

Definition _get_hap_names_map (w : World) : gmap string string :=
  foldl (names_step w) ∅ (_get_hap_dirs w).

(** [1 if not dirs else int(dirs[-1]) + 1] *)
Definition get_next_hap_id (w : World) : N :=
  match last (_get_hap_dirs w) with
  | None => 1
  | Some d => int d + 1
  end%N.

(** [get_hap]: the id first, then the name; falling off the end of the
    function returns [None]. *)
Definition get_hap (w : World) (hap_alias : string) : option Hap :=
  if bool_decide (hap_alias ∈ _get_hap_dirs w) then Some (mkHap hap_alias)
  else
    match _get_hap_names_map w !! hap_alias with
    | Some d => Some (mkHap d)
    | None => None
    end.

(** [get_haps]; the registry directory exists from [__init__] on. *)
Definition get_haps (w : World) : list Hap := mkHap <$> _get_hap_dirs w.

(** The entry [dir] holds a name marker that reads [name] once stripped:
    the key under which [_get_hap_names_map] files it. *)
Definition has_name (w : World) (name dir : string) : bool :=
  match fs w !! dir with
  | Some f =>
      match name_file f with
      | Some raw => bool_decide (strip raw = name)
      | None => false
      end
  | None => false
  end.

(** The entry [dir] is a record directory: it exists and its name is a
    string of digits. *)
Definition is_hap_dir (w : World) (dir : string) : bool :=
  isdigit dir && bool_decide (is_Some (fs w !! dir)).

(** ** Properties of a [Hap]: the marker files read through the handle *)

(** Modelled from the spec: the properties [pid], [rc], [name] and [cmd]
    of [Hap] (hapless/hap.py, which is not among the sources): each reads
    the marker file of the persisted layout of section 6, and is absent
    when the file or the directory is. *)
Definition hap_files (w : World) (h : Hap) : option HapFiles := fs w !! hid h.

Definition hap_pid (w : World) (h : Hap) : option Z := hap_files w h ≫= pid_file.

Definition hap_rc (w : World) (h : Hap) : option Z := hap_files w h ≫= rc_file.

Definition hap_name (w : World) (h : Hap) : option string :=
  hap_files w h ≫= name_file.

Definition hap_cmd (w : World) (h : Hap) : option string :=
  cmd_file <$> hap_files w h.

(** Modelled from the spec: [Hap.proc] of hapless/hap.py, which is not among
    the sources: the live process that the process table holds for the
    bound pid, or nothing ("query ProcessFacts for a live process with
    that pid"). *)
Definition hap_proc (w : World) (h : Hap) : option (Z * ProcStatus) :=
  p ← hap_pid w h; st ← procs w !! p; Some (p, st).

(** The [Status] enumeration of hapless/hap.py, with the states that
    section 4.2 of the spec lists. *)
Inductive Status := UNBOUND | PAUSED | RUNNING | FAILED | SUCCESS.

Global Instance Status_eq_dec : EqDecision Status.
Proof. solve_decision. Defined.

(** Modelled from the spec: [Hap.status] of hapless/hap.py, the transition
    rule of section 4.2. An exit code decides first; without one, no pid
    is UNBOUND; with a pid the process table decides between PAUSED and
    RUNNING. For a pid without a live process the spec names no status
    and only forbids FAILED; [signal] in main.py calls
    [hap.proc.send_signal] under [if hap.active], so such a record is not
    active, which leaves UNBOUND. *)
Definition spec_status_of (f : option HapFiles) (ps : gmap Z ProcStatus) : Status :=
  match f ≫= rc_file with
  | Some c => if bool_decide (c = 0%Z) then SUCCESS else FAILED
  | None =>
      match f ≫= pid_file with
      | None => UNBOUND
      | Some p =>
          match ps !! p with
          | None => UNBOUND
          | Some STATUS_STOPPED => PAUSED
          | Some _ => RUNNING
          end
      end
  end.

(** The collaborators of [Hapless] that main.py imports or runs beside:
    the derived status of hapless/hap.py (a function of the record's own
    files and of the process table), [kill_proc_tree] of hapless/utils.py,
    and what the rest of the machine does to the world between two polls
    of the loop of [restart]. *)
Class Collaborators := {
  status_of : option HapFiles → gmap Z ProcStatus → Status;
  kill_proc_tree : option Z → World → World;
  env : nat → World → World
}.

Section derived.
Context {collab : Collaborators}.

Definition hap_status (w : World) (h : Hap) : Status :=
  status_of (hap_files w h) (procs w).

(** Modelled from the spec: [Hap.active] of hapless/hap.py, by the
    glossary: status RUNNING or PAUSED. *)
Definition hap_active (w : World) (h : Hap) : bool :=
  bool_decide (hap_status w h = RUNNING ∨ hap_status w h = PAUSED).

End derived.

(** ** Effects: world, console and exits

    A call ends by returning, by [sys.exit], by an exception, or, for the
    loop of [restart] that has no bound of its own, not within the number
    of polls it is given ([Unfinished]). *)

Inductive Exn :=
| FileExistsError
| FileNotFoundError
| AttributeError
| OSError.

Inductive Outcome (A : Type) :=
| Ret (a : A)
| SysExit (code : Z)
| Raise (e : Exn)
| Unfinished.
Arguments Ret {A} a.
Arguments SysExit {A} code.
Arguments Raise {A} e.
Arguments Unfinished {A}.

Inductive Message :=
| MsgFastFailure
| MsgText (content : option string)
| MsgPaused (h : Hap)
| MsgCannotPause (h : Hap)
| MsgResumed (h : Hap)
| MsgCannotResume (h : Hap)
| MsgDeletedFinished (n : nat)
| MsgNothingToClean
| MsgDeletedHap (hid : string)
| MsgKilled (n : nat)
| MsgNoActive.

Inductive Event :=
| Print (m : Message)
| Mkdir (path : string)
| Rmtree (path : string)
| KillProcTree (pid : option Z)
| Suspend (pid : Z)
| Resume (pid : Z)
| Fork (child : Hap).

Record Res (A : Type) := mkRes {
  outcome : Outcome A;
  world : World;
  events : list Event
}.
Arguments mkRes {A} outcome world events.
Arguments outcome {A} r.
Arguments world {A} r.
Arguments events {A} r.

Definition M (A : Type) : Type := World → Res A.

Definition M_ret {A} (a : A) : M A := λ w, mkRes (Ret a) w [].

Definition M_bind {A B} (m : M A) (k : A → M B) : M B := λ w,
  let r := m w in
  match outcome r with
  | Ret a =>
      let r' := k a (world r) in
      mkRes (outcome r') (world r') (events r ++ events r')
  | SysExit c => mkRes (SysExit c) (world r) (events r)
  | Raise e => mkRes (Raise e) (world r) (events r)
  | Unfinished => mkRes Unfinished (world r) (events r)
  end.

Notation "x ←← m ; k" := (M_bind m (λ x, k))
  (at level 100, m at next level, right associativity).
Notation "m ;;; k" := (M_bind m (λ _, k))
  (at level 100, right associativity).

Definition emit (e : Event) : M unit := λ w, mkRes (Ret tt) w [e].
Definition console_print (m : Message) : M unit := emit (Print m).
Definition sys_exit {A} (code : Z) : M A := λ w, mkRes (SysExit code) w [].
Definition raise {A} (e : Exn) : M A := λ w, mkRes (Raise e) w [].
Definition get_world : M World := λ w, mkRes (Ret w) w [].
Definition set_fs (m : gmap string HapFiles) : M unit := λ w,
  mkRes (Ret tt) (mkWorld m (procs w)) [].
Definition set_procs (ps : gmap Z ProcStatus) : M unit := λ w,
  mkRes (Ret tt) (mkWorld (fs w) ps) [].

(** The result [r] of a call made after the events [ev]. *)
Definition after_events {A} (ev : list Event) (r : Res A) : Res A :=
  mkRes (outcome r) (world r) (ev ++ events r).

(** [for x in l: body x] *)
Fixpoint for_each {A} (l : list A) (body : A → M unit) : M unit :=
  match l with
  | [] => M_ret tt
  | x :: l' => body x ;;; for_each l' body
  end.

(** Modelled from the spec: the constructor [Hap(path, cmd=, name=)] of
    hapless/hap.py, which is not among the sources: it stores "a file
    holding the command line" and "an optional file holding the display
    name"; the record is unbound, with neither pid nor exit code. *)
Definition new_hap_files (cmd : string) (name : option string) : HapFiles :=
  mkFiles name cmd None None None None.

(** [hap_dir.mkdir()] and the files that the constructor of the new [Hap]
    puts there. [Path.mkdir] raises when the directory exists. *)
Definition mkdir_hap (path : string) (cmd : string) (name : option string) : M unit :=
  w ←← get_world;
  match fs w !! path with
  | Some _ => raise FileExistsError
  | None =>
      emit (Mkdir path) ;;;
      set_fs (<[path := new_hap_files cmd name]> (fs w))
  end.

(** [shutil.rmtree(hap.path)] *)
Definition rmtree (h : Hap) : M unit :=
  w ←← get_world;
  match fs w !! hid h with
  | None => raise FileNotFoundError
  | Some _ => emit (Rmtree (hid h)) ;;; set_fs (delete (hid h) (fs w))
  end.

(** ** Supervisor *)

Definition create_hap (cmd : string) (name : option string) : M Hap :=
  w ←← get_world;
  let hid := get_next_hap_id w in
  let hap_dir := pretty hid in
  mkdir_hap hap_dir cmd name ;;;
  M_ret (mkHap hap_dir).

(** The record that [create_hap] makes, and the registry with it. *)
Definition next_hap (w : World) : Hap := mkHap (pretty (get_next_hap_id w)).

Definition created (w : World) (cmd : string) (name : option string) : World :=
  mkWorld (<[hid (next_hap w) := new_hap_files cmd name]> (fs w)) (procs w).

(** *** The detached flow: [run_hap]

    What the operating system decides during a launch: whether [Popen]
    returns a process (and its pid) or raises, the code [proc.wait()]
    returns, what the process has written to its error sink by then, and
    how many statements the detached flow has made when the bounded wait
    of the launching flow is over. *)
Record Oracle := mkOracle {
  popen_pid : option Z;
  retcode : Z;
  stderr_text : string;
  progress : nat
}.

Inductive Pc :=
| AtOpen
| AtPopen
| AtBind (pid : Z)
| AtWait (pid : Z)
| AtWriteRc (code : Z)
| Finished
| Raised (e : Exn).

Definition set_sinks (f : HapFiles) : HapFiles :=
  mkFiles (name_file f) (cmd_file f) (pid_file f) (rc_file f) (Some "") (Some "").

Definition set_stderr (text : string) (f : HapFiles) : HapFiles :=
  mkFiles (name_file f) (cmd_file f) (pid_file f) (rc_file f)
          (stdout_file f) (Some text).

Definition set_pid (pid : Z) (f : HapFiles) : HapFiles :=
  mkFiles (name_file f) (cmd_file f) (Some pid) (rc_file f)
          (stdout_file f) (stderr_file f).

Definition set_rc (code : Z) (f : HapFiles) : HapFiles :=
  mkFiles (name_file f) (cmd_file f) (pid_file f) (Some code)
          (stdout_file f) (stderr_file f).

Definition update_files (h : Hap) (g : HapFiles → HapFiles) (w : World) : World :=
  mkWorld (alter g (hid h) (fs w)) (procs w).

(** Modelled from the spec: [Hap.bind] of hapless/hap.py, which is not
    among the sources: "a file holding the bound OS process id (created
    at bind time)". *)
Definition bind_pid (h : Hap) (pid : Z) (w : World) : World :=
  update_files h (set_pid pid) w.

(** One statement of [run_hap]: the two [open(..., "w")] of the sinks,
    [subprocess.Popen], [hap.bind(pid)], [proc.wait()] and the write of
    the exit code. Opening a file below a directory that is gone raises;
    [Popen] adds the shell process to the process table or raises;
    [proc.wait()] returns once the process is gone from it. The line that
    the flow prints on the console before [Popen] changes nothing of the
    world and is left out. *)
Definition run_hap_step (o : Oracle) (h : Hap) (c : Pc * World) : Pc * World :=
  let w := c.2 in
  match c.1 with
  | AtOpen =>
      match hap_files w h with
      | None => (Raised FileNotFoundError, w)
      | Some _ => (AtPopen, update_files h set_sinks w)
      end
  | AtPopen =>
      match popen_pid o with
      | None => (Raised OSError, w)
      | Some pid => (AtBind pid, mkWorld (fs w) (<[pid := STATUS_RUNNING]> (procs w)))
      end
  | AtBind pid => (AtWait pid, bind_pid h pid w)
  | AtWait pid =>
      (AtWriteRc (retcode o),
       update_files h (set_stderr (stderr_text o))
                    (mkWorld (fs w) (delete pid (procs w))))
  | AtWriteRc code =>
      match hap_files w h with
      | None => (Raised FileNotFoundError, w)
      | Some _ => (Finished, update_files h (set_rc code) w)
      end
  | Finished => c
  | Raised _ => c
  end.

(** The detached flow after [n] statements. *)
Definition run_hap_at (o : Oracle) (h : Hap) (n : nat) (w : World) : Pc * World :=
  Nat.iter n (run_hap_step o h) (AtOpen, w).

(** [run_hap] to its end: five statements. *)
Definition run_hap (o : Oracle) (h : Hap) (w : World) : Pc * World :=
  run_hap_at o h 5 w.

(** The worlds of the flow when [Popen] returns a process. *)
Definition spawned (h : Hap) (pid : Z) (w : World) : World :=
  mkWorld (fs (update_files h set_sinks w)) (<[pid := STATUS_RUNNING]> (procs w)).

Definition exited (o : Oracle) (h : Hap) (pid : Z) (w : World) : World :=
  update_files h (set_stderr (stderr_text o))
    (mkWorld (fs (bind_pid h pid (spawned h pid w)))
             (delete pid (procs (bind_pid h pid (spawned h pid w))))).

(** A reader of the record sees an exit code only next to a pid. *)
Definition pid_before_rc (w : World) (h : Hap) : Prop :=
  is_Some (hap_rc w h) → is_Some (hap_pid w h).

(** What holds between two statements of [run_hap]: the record exists once
    its sinks are open, and its pid is bound from [hap.bind] on. *)
Definition run_hap_inv (h : Hap) (c : Pc * World) : Prop :=
  pid_before_rc c.2 h
  ∧ match c.1 with
    | AtPopen | AtBind _ => is_Some (hap_files c.2 h)
    | AtWait _ | AtWriteRc _ => is_Some (hap_pid c.2 h)
    | AtOpen | Finished | Raised _ => True
    end.

(** What the statements of [run_hap] leave alone, with what the flow knows
    of its process. *)
Definition run_hap_frame_inv (o : Oracle) (h : Hap) (w : World) (c : Pc * World)
  : Prop :=
  (∀ d, d ≠ hid h → fs c.2 !! d = fs w !! d)
  ∧ (∀ q, popen_pid o ≠ Some q → procs c.2 !! q = procs w !! q)
  ∧ hap_name c.2 h = hap_name w h
  ∧ hap_cmd c.2 h = hap_cmd w h
  ∧ (∀ pid, c.1 = AtBind pid ∨ c.1 = AtWait pid → popen_pid o = Some pid).

(** *** The launching flow *)

(** Modelled from the spec: [wait_created] of hapless/utils.py, the bounded
    poll for the exit-code marker: the detached flow goes on while the
    launching flow waits, and the answer is whether the marker is there
    when the wait is over. *)
Definition wait_created_rc (o : Oracle) (h : Hap) : M bool := λ w,
  let w' := (run_hap_at o h (progress o) w).2 in
  mkRes (Ret (bool_decide (is_Some (hap_rc w' h)))) w' [].

Definition _check_fast_failure (o : Oracle) (hap : Hap) : M unit :=
  created ←← wait_created_rc o hap;
  w ←← get_world;
  if created && negb (bool_decide (hap_rc w hap = Some 0%Z)) then
    console_print MsgFastFailure ;;;
    console_print (MsgText (hap_files w hap ≫= stderr_file)) ;;;
    sys_exit 1
  else M_ret tt.

(** [run], as the launching process lives it: [os.fork()] starts the
    detached flow, which runs [run_hap] on the new record. *)
Definition run (o : Oracle) (cmd : string) (name : option string) (check : bool)
  : M unit :=
  hap ←← create_hap cmd name;
  emit (Fork hap) ;;;
  (if check then _check_fast_failure o hap else M_ret tt) ;;;
  sys_exit 0.

(** *** Control operations *)

(** [proc.suspend()] stops the process, [proc.resume()] lets it run. *)
Definition pause_hap (hap : Hap) : M unit :=
  w ←← get_world;
  match hap_proc w hap with
  | Some (pid, _) =>
      emit (Suspend pid) ;;;
      set_procs (<[pid := STATUS_STOPPED]> (procs w)) ;;;
      console_print (MsgPaused hap)
  | None =>
      console_print (MsgCannotPause hap) ;;;
      sys_exit 1
  end.

Definition resume_hap (hap : Hap) : M unit :=
  w ←← get_world;
  match hap_proc w hap with
  | Some (pid, STATUS_STOPPED) =>
      emit (Resume pid) ;;;
      set_procs (<[pid := STATUS_RUNNING]> (procs w)) ;;;
      console_print (MsgResumed hap)
  | _ =>
      console_print (MsgCannotResume hap) ;;;
      sys_exit 1
  end.

(** [clean_one]: its [to_clean] compares the ids only. *)
Definition clean_one (hap : Hap) (verbose : bool) : M unit :=
  let hid0 := hid hap in
  w ←← get_world;
  let haps := filter (λ hap_arg, hid hap_arg = hid0) (get_haps w) in
  for_each haps rmtree ;;;
  if verbose then console_print (MsgDeletedHap hid0) else M_ret tt.

(** The registry directory without the directories of the records [l]. *)
Definition remove_dirs (l : list Hap) (m : gmap string HapFiles)
  : gmap string HapFiles :=
  foldl (λ m' h, delete (hid h) m') m l.

Section supervisor.
Context {collab : Collaborators}.

(** The [to_clean] of [clean]. *)
Definition to_clean (clean_all : bool) (w : World) (hap : Hap) : bool :=
  bool_decide (hap_status w hap = SUCCESS)
  || (bool_decide (hap_status w hap = FAILED) && clean_all).

Definition clean (clean_all : bool) : M unit :=
  w ←← get_world;
  let haps := filter (λ hap, to_clean clean_all w hap) (get_haps w) in
  for_each haps rmtree ;;;
  match haps with
  | [] => console_print MsgNothingToClean
  | _ => console_print (MsgDeletedFinished (length haps))
  end.

(** The records that [clean] deletes. *)
Definition cleaned (clean_all : bool) (w : World) : list Hap :=
  filter (λ hap, to_clean clean_all w hap) (get_haps w).

Definition call_kill_proc_tree (pid : option Z) : M unit := λ w,
  mkRes (Ret tt) (kill_proc_tree pid w) [KillProcTree pid].

(** The loop of [kill]. *)
Fixpoint kill_loop (haps : list Hap) (killed_counter : nat) : M nat :=
  match haps with
  | [] => M_ret killed_counter
  | hap :: haps' =>
      w ←← get_world;
      if hap_active w hap then
        call_kill_proc_tree (hap_pid w hap) ;;;
        kill_loop haps' (S killed_counter)
      else kill_loop haps' killed_counter
  end.

Definition kill (haps : list Hap) (verbose : bool) : M unit :=
  killed_counter ←← kill_loop haps 0;
  if bool_decide (killed_counter ≠ 0) && verbose then
    console_print (MsgKilled killed_counter)
  else if verbose then console_print MsgNoActive
  else M_ret tt.

(** The loop of [restart]: [hap_killed = self.get_hap(hid)] and
    [while hap_killed.active], the rest of the machine moving between two
    polls. *)
Fixpoint poll_killed (fuel i : nat) (hid0 : string) : M Hap := λ w,
  match get_hap w hid0 with
  | None => raise AttributeError w
  | Some hap_killed =>
      if hap_active w hap_killed then
        match fuel with
        | O => mkRes Unfinished w []
        | S fuel' => poll_killed fuel' (S i) hid0 (env i w)
        end
      else M_ret hap_killed w
  end.

(** [restart]. Reading the command of a record whose directory is gone
    raises. *)
Definition restart (o : Oracle) (fuel : nat) (hap : Hap) : M unit :=
  w ←← get_world;
  match hap_cmd w hap with
  | None => raise FileNotFoundError
  | Some cmd =>
      let name := hap_name w hap in
      (if hap_active w hap then kill [hap] false else M_ret tt) ;;;
      hap_killed ←← poll_killed fuel 0 (hid hap);
      clean_one hap_killed false ;;;
      run o cmd name false
  end.

(** The world after the polls [i], ..., [i + n - 1] of the loop of
    [restart] have found the record active. *)
Fixpoint env_run (i n : nat) (w : World) : World :=
  match n with
  | O => w
  | S n' => env_run (S i) n' (env i w)
  end.

(** The world in which [restart] starts to poll. *)
Definition killed (hap : Hap) (w : World) : World :=
  if hap_active w hap then kill_proc_tree (hap_pid w hap) w else w.

(** The registry directory without the record [hap]. *)
Definition without (hap : Hap) (w : World) : World :=
  mkWorld (delete (hid hap) (fs w)) (procs w).

End supervisor.

(** *** [kill] over a helper that can raise

    [kill] calls [kill_proc_tree] (line 334) without a handler: an
    exception of the helper ends the loop, and [kill] with it. Here the
    helper is any function that leaves a world and may raise; [kill] and
    its loop are the statements of the source over such a helper. *)
Section kill_unhandled.
Context {collab : Collaborators}.
Variable kill_proc_tree_raising : option Z → World → option Exn * World.

Definition call_raising (pid : option Z) : M unit := λ w,
  let r := kill_proc_tree_raising pid w in
  mkRes (match r.1 with Some e => Raise e | None => Ret tt end) r.2
        [KillProcTree pid].

Fixpoint kill_loop_raising (haps : list Hap) (killed_counter : nat) : M nat :=
  match haps with
  | [] => M_ret killed_counter
  | hap :: haps' =>
      w ←← get_world;
      if hap_active w hap then
        call_raising (hap_pid w hap) ;;;
        kill_loop_raising haps' (S killed_counter)
      else kill_loop_raising haps' killed_counter
  end.

Definition kill_raising (haps : list Hap) (verbose : bool) : M unit :=
  killed_counter ←← kill_loop_raising haps 0;
  if bool_decide (killed_counter ≠ 0) && verbose then
    console_print (MsgKilled killed_counter)
  else if verbose then console_print MsgNoActive
  else M_ret tt.

(** What [kill] prints after [n] calls of the helper. *)
Definition kill_message (n : nat) (verbose : bool) : list Event :=
  if verbose then
    [Print (match n with O => MsgNoActive | _ => MsgKilled n end)]
  else [].

(** The pids of the haps of a list that are active. *)
Definition active_pids (w : World) (haps : list Hap) : list (option Z) :=
  hap_pid w <$> filter (λ hap, hap_active w hap) haps.

End kill_unhandled.

(** Modelled from the spec: [kill_proc_tree] of hapless/utils.py, which is
    not among the sources: it "terminates the entire process tree", after
    which the process of the record is gone. (Descendants have no entry
    of their own in a record, and are left out.) *)
Definition spec_kill_proc_tree (pid : option Z) (w : World) : World :=
  match pid with
  | Some p => mkWorld (fs w) (delete p (procs w))
  | None => w
  end.

(** The collaborators as the spec describes them, on a machine on which
    nothing else happens. *)
Global Instance spec_collaborators : Collaborators := {|
  status_of := spec_status_of;
  kill_proc_tree := spec_kill_proc_tree;
  env := λ _ w, w
|}.

(** ** Registries used as examples *)

Definition w_fresh : World :=
  mkWorld (<["1" := mkFiles (Some "nap") "sleep 5" None None None None]> ∅) ∅.

(** A registry with one finished record. *)
Definition w_single : World :=
  mkWorld (<["1" := mkFiles (Some "nap") "sleep 1" (Some 4242%Z) (Some 0%Z)
                            (Some "") (Some "")]> ∅) ∅.

Definition w_names : World :=
  mkWorld (<["2" := mkFiles (Some "nap") "sleep 5" None None None None]>
          (<["10" := mkFiles (Some " nap ") "sleep 6" None None None None]>
          (<["9" := mkFiles (Some "other") "sleep 7" None None None None]> ∅))) ∅.

(** An alias that is the id of one record and the name of another. *)
Definition w_collide : World :=
  mkWorld (<["1" := mkFiles (Some "2") "sleep 1" None None None None]>
          (<["2" := mkFiles (Some "x") "sleep 2" None None None None]>
          (<["3" := mkFiles (Some "2") "sleep 3" None None None None]> ∅))) ∅.

Definition w_jobs : World :=
  mkWorld (<["1" := mkFiles (Some "nap") "sleep 60" (Some 4242%Z) None (Some "") (Some "")]>
          (<["2" := mkFiles (Some "done") "true" (Some 4300%Z) (Some 0%Z) (Some "") (Some "")]>
          (<["3" := mkFiles (Some "bad") "false" (Some 4400%Z) (Some 1%Z) (Some "") (Some "")]>
          (<["4" := mkFiles (Some "new") "sleep 1" None None None None]> ∅))))
          (<[4242%Z := STATUS_SLEEPING]> ∅).

(** A registry on which the pid of the finished record 1 names a live
    process again (the system has given pid 7 to another process), and on
    which the process of record 2 is stopped. *)
Definition w_recycled : World :=
  mkWorld (<["1" := mkFiles (Some "done") "true" (Some 7%Z) (Some 0%Z) (Some "") (Some "")]>
          (<["2" := mkFiles (Some "held") "sleep 60" (Some 8%Z) None (Some "") (Some "")]> ∅))
          (<[7%Z := STATUS_RUNNING]> (<[8%Z := STATUS_STOPPED]> ∅)).

(** A machine on which [kill_proc_tree] only sends the signals and the
    process is gone two polls later. *)
Definition slow_collaborators : Collaborators := {|
  status_of := spec_status_of;
  kill_proc_tree := λ _ w, w;
  env := λ i w, if bool_decide (i = 1) then mkWorld (fs w) ∅ else w
|}.

(** A machine on which the registry is emptied while [restart] polls. *)
Definition vanishing_collaborators : Collaborators := {|
  status_of := spec_status_of;
  kill_proc_tree := λ _ w, w;
  env := λ i w, if bool_decide (i = 0) then mkWorld ∅ (procs w) else w
|}.

(** * Properties *)

(** Reads of the marker files of a record after the writes of [run_hap]. *)
Ltac files_simpl :=
  unfold hap_rc, hap_pid, hap_files, exited, bind_pid, spawned, update_files, created;
  simpl; rewrite ?lookup_alter_eq, ?lookup_insert_eq; simpl.


(** ** Sequencing *)

Lemma M_bind_ok {A B} (m : M A) (k : A → M B) (w : World) (a : A) (w' : World)
    (ev : list Event) :
  m w = mkRes (Ret a) w' ev → M_bind m k w = after_events ev (k a w').
Proof. intros Hm. unfold M_bind. by rewrite Hm. Qed.

Lemma after_events_nil {A} (r : Res A) : after_events [] r = r.
Proof. by destruct r. Qed.

(** ** Decimal strings *)

Lemma digit_val_pretty_N_char (x : N) :
  (x < 10)%N → digit_val (pretty_N_char x) = x ∧ is_digit_char (pretty_N_char x) = true.
Proof.
  intros Hx.
  assert (x = 0 ∨ x = 1 ∨ x = 2 ∨ x = 3 ∨ x = 4 ∨ x = 5 ∨ x = 6 ∨ x = 7
          ∨ x = 8 ∨ x = 9)%N as Hc by lia.
  repeat (destruct Hc as [-> | Hc]; [by vm_compute |]). subst x. by vm_compute.
Qed.

Lemma int_acc_pretty_N_go (x : N) (s : string) :
  int_acc 0 (pretty_N_go x s) = int_acc x s.
Proof.
  revert s. induction (N.lt_wf_0 x) as [x _ IH]; intros s.
  destruct (decide (x = 0%N)) as [-> | Hx]; [by rewrite pretty_N_go_0 |].
  rewrite pretty_N_go_step by lia.
  rewrite IH by (apply N.div_lt; lia). simpl.
  destruct (digit_val_pretty_N_char (x `mod` 10)) as [-> _].
  { apply N.mod_lt. lia. }
  f_equal. pose proof (N.div_mod x 10). lia.
Qed.

Lemma all_digits_pretty_N_go (x : N) (s : string) :
  all_digits (pretty_N_go x s) = all_digits s.
Proof.
  revert s. induction (N.lt_wf_0 x) as [x _ IH]; intros s.
  destruct (decide (x = 0%N)) as [-> | Hx]; [by rewrite pretty_N_go_0 |].
  rewrite pretty_N_go_step by lia.
  rewrite IH by (apply N.div_lt; lia). simpl.
  destruct (digit_val_pretty_N_char (x `mod` 10)) as [_ ->]; [| done].
  apply N.mod_lt. lia.
Qed.

Lemma pretty_N_go_nonempty (x : N) (s : string) :
  s ≠ EmptyString → pretty_N_go x s ≠ EmptyString.
Proof.
  revert s. induction (N.lt_wf_0 x) as [x _ IH]; intros s Hs.
  destruct (decide (x = 0%N)) as [-> | Hx]; [by rewrite pretty_N_go_0 |].
  rewrite pretty_N_go_step by lia. apply IH; [apply N.div_lt; lia | done].
Qed.

(** [int(f"{n}") == n] and [f"{n}".isdigit()]. *)
Lemma int_pretty (n : N) : int (pretty n) = n.
Proof.
  unfold pretty, pretty_N, int. case_decide as Hn; [by subst |].
  rewrite int_acc_pretty_N_go. done.
Qed.

Lemma isdigit_pretty (n : N) : isdigit (pretty n) = true.
Proof.
  unfold pretty, pretty_N. case_decide as Hn; [done |].
  assert (pretty_N_go n "" ≠ EmptyString) as Hne.
  { rewrite pretty_N_go_step by lia. by apply pretty_N_go_nonempty. }
  unfold isdigit. destruct (pretty_N_go n "") eqn:E; [done |].
  rewrite <- E. by rewrite all_digits_pretty_N_go.
Qed.

(** ** The record directories *)

Lemma elem_of_listdir (w : World) (d : string) :
  d ∈ listdir w ↔ is_Some (fs w !! d).
Proof.
  unfold listdir. rewrite list_elem_of_fmap. split.
  - intros [[k f] [-> Hin]]. apply elem_of_map_to_list in Hin. by exists f.
  - intros [f Hf]. exists (d, f). split; [done |]. by apply elem_of_map_to_list.
Qed.

(** The numeric record directories are the entries with a name of digits. *)
Lemma elem_of_get_hap_dirs (w : World) (d : string) :
  d ∈ _get_hap_dirs w ↔ isdigit d = true ∧ is_Some (fs w !! d).
Proof.
  unfold _get_hap_dirs. rewrite merge_sort_Permutation.
  rewrite list_elem_of_filter, elem_of_listdir, Is_true_true. done.
Qed.

Lemma NoDup_get_hap_dirs (w : World) : NoDup (_get_hap_dirs w).
Proof.
  unfold _get_hap_dirs. rewrite merge_sort_Permutation.
  apply NoDup_filter, NoDup_fst_map_to_list.
Qed.

Lemma sorted_get_hap_dirs (w : World) : StronglySorted int_le (_get_hap_dirs w).
Proof. apply StronglySorted_merge_sort; apply _. Qed.

Lemma StronglySorted_last_max (l : list string) (d x : string) :
  StronglySorted int_le l → last l = Some d → x ∈ l → int_le x d.
Proof.
  induction 1 as [| y l Hs IH Hall]; intros Hl Hx; [by inversion Hx |].
  destruct l as [| z l'].
  - simpl in Hl. apply list_elem_of_singleton in Hx. simplify_eq. unfold int_le. lia.
  - change (last (y :: z :: l')) with (last (z :: l')) in Hl.
    apply elem_of_cons in Hx as [-> | Hx]; [| by apply IH].
    rewrite Forall_forall in Hall. apply Hall.
    apply list_elem_of_lookup. exists (length l').
    rewrite last_lookup in Hl. done.
Qed.

(** [get_next_hap_id] is above every numeric directory. *)
Lemma get_next_hap_id_above (w : World) (d : string) :
  d ∈ _get_hap_dirs w → (int d < get_next_hap_id w)%N.
Proof.
  intros Hd. unfold get_next_hap_id.
  destruct (last (_get_hap_dirs w)) as [m |] eqn:El.
  - pose proof (StronglySorted_last_max _ m d (sorted_get_hap_dirs w) El Hd) as H.
    unfold int_le in H. lia.
  - apply last_None in El. rewrite El in Hd. by inversion Hd.
Qed.

(** The directory that [create_hap] is about to make does not exist. *)
Lemma next_hap_dir_fresh (w : World) : fs w !! pretty (get_next_hap_id w) = None.
Proof.
  destruct (fs w !! pretty (get_next_hap_id w)) as [f |] eqn:E; [| done].
  assert (pretty (get_next_hap_id w) ∈ _get_hap_dirs w) as Hin.
  { apply elem_of_get_hap_dirs. split; [apply isdigit_pretty | by exists f]. }
  apply get_next_hap_id_above in Hin. rewrite int_pretty in Hin. lia.
Qed.

(** ** Allocation of ids *)

(** C3: [get_next_hap_id] is 1 when the registry holds no numeric record
    directory; otherwise it is one more than the highest numeric id among
    them. On an empty registry, after three records have been created (ids
    1, 2, 3) and record 2 has been deleted, the next id is 4. *)
Theorem get_next_hap_id_max_plus_one :
  (∀ w : World,
     (∀ d, is_Some (fs w !! d) → isdigit d = false) → get_next_hap_id w = 1%N)
  ∧ (∀ (w : World) (d : string),
       isdigit d = true → is_Some (fs w !! d) →
       ∃ m, isdigit m = true ∧ is_Some (fs w !! m)
            ∧ (∀ d', isdigit d' = true → is_Some (fs w !! d') → (int d' ≤ int m)%N)
            ∧ get_next_hap_id w = (int m + 1)%N)
  ∧ (∀ ps c1 n1 c2 n2 c3 n3,
       let r := (create_hap c1 n1 ;;; create_hap c2 n2 ;;; create_hap c3 n3 ;;;
                 clean_one (mkHap "2") false) (mkWorld ∅ ps) in
       get_next_hap_id (mkWorld ∅ ps) = 1%N
       ∧ outcome r = Ret tt
       ∧ events r = [Mkdir "1"; Mkdir "2"; Mkdir "3"; Rmtree "2"]
       ∧ _get_hap_dirs (world r) = ["1"; "3"]
       ∧ get_next_hap_id (world r) = 4%N).
Proof.
  split; [| split].
  - intros w Hnone. unfold get_next_hap_id.
    destruct (last (_get_hap_dirs w)) as [m |] eqn:El; [| done].
    apply last_Some_elem_of, elem_of_get_hap_dirs in El as [Hd Hf].
    apply Hnone in Hf. congruence.
  - intros w d Hd Hf.
    assert (d ∈ _get_hap_dirs w) as Hin by (by apply elem_of_get_hap_dirs).
    unfold get_next_hap_id.
    destruct (last (_get_hap_dirs w)) as [m |] eqn:El.
    + exists m. pose proof (last_Some_elem_of _ _ El) as Hm.
      apply elem_of_get_hap_dirs in Hm as [Hmd Hmf].
      split; [done |]. split; [done |]. split; [| done].
      intros d' Hd' Hf'.
      apply (StronglySorted_last_max (_get_hap_dirs w)).
      * apply sorted_get_hap_dirs.
      * done.
      * by apply elem_of_get_hap_dirs.
    + apply last_None in El. rewrite El in Hin. by inversion Hin.
  - intros ps c1 n1 c2 n2 c3 n3. vm_compute. done.
Qed.

(** ** Resolution of an alias *)

Lemma is_hap_dir_elem_of (w : World) (d : string) :
  is_hap_dir w d = true ↔ d ∈ _get_hap_dirs w.
Proof.
  unfold is_hap_dir. rewrite elem_of_get_hap_dirs, andb_true_iff.
  by rewrite bool_decide_eq_true.
Qed.

Lemma names_step_lookup (w : World) (names : gmap string string) (a d : string) :
  names_step w names d !! a = if has_name w a d then Some d else names !! a.
Proof.
  unfold names_step, has_name.
  destruct (fs w !! d) as [f |]; [| done].
  destruct (name_file f) as [raw |]; [| done].
  case_bool_decide as Hs.
  - subst a. apply lookup_insert_eq.
  - by apply lookup_insert_ne.
Qed.

(** The loop of [_get_hap_names_map] leaves under a name the last
    directory of the scan that carries it. *)
Lemma names_fold_lookup (w : World) (l : list string) (names : gmap string string)
    (a : string) :
  match foldl (names_step w) names l !! a with
  | Some d =>
      (names !! a = Some d ∧ ∀ x, x ∈ l → has_name w a x = false)
      ∨ (∃ l1 l2 : list string, l = (l1 ++ d :: l2)%list ∧ has_name w a d = true
                  ∧ ∀ x, x ∈ l2 → has_name w a x = false)
  | None => names !! a = None ∧ ∀ x, x ∈ l → has_name w a x = false
  end.
Proof.
  revert names. induction l as [| y l IH]; intros names; simpl.
  - destruct (names !! a) as [d |] eqn:E.
    + left. split; [done |]. intros x Hx. by inversion Hx.
    + split; [done |]. intros x Hx. by inversion Hx.
  - specialize (IH (names_step w names y)).
    rewrite names_step_lookup in IH.
    destruct (foldl (names_step w) (names_step w names y) l !! a) as [d |].
    + destruct IH as [[Hn Hl] | (l1 & l2 & -> & Hd & Hl2)].
      * destruct (has_name w a y) eqn:Hy.
        -- right. exists [], l. simplify_eq. done.
        -- left. split; [done |]. by intros x [-> | Hx]%elem_of_cons; auto.
      * right. by exists (y :: l1), l2.
    + destruct IH as [Hn Hl]. destruct (has_name w a y) eqn:Hy; [done |].
      split; [done |]. by intros x [-> | Hx]%elem_of_cons; auto.
Qed.

Lemma names_map_Some (w : World) (a d : string) :
  _get_hap_names_map w !! a = Some d →
  is_hap_dir w d = true ∧ has_name w a d = true
  ∧ ∀ d', is_hap_dir w d' = true → has_name w a d' = true → (int d' ≤ int d)%N.
Proof.
  intros Hm. pose proof (names_fold_lookup w (_get_hap_dirs w) ∅ a) as H.
  fold (_get_hap_names_map w) in H. rewrite Hm in H.
  destruct H as [[He _] | (l1 & l2 & El & Hd & Hl2)]; [by rewrite lookup_empty in He |].
  pose proof (sorted_get_hap_dirs w) as Hs. rewrite El in Hs.
  split; [| split; [done |]].
  - apply is_hap_dir_elem_of. rewrite El. set_solver.
  - intros d' Hd' Hn'. apply is_hap_dir_elem_of in Hd'. rewrite El in Hd'.
    apply elem_of_app in Hd' as [H1 | H2].
    + clear El. induction l1 as [| z l1 IHl]; [by inversion H1 |].
      simpl in Hs. apply StronglySorted_inv in Hs as [Hs Hall].
      apply elem_of_cons in H1 as [-> | H1]; [| by apply IHl].
      rewrite Forall_forall in Hall. apply Hall. set_solver.
    + apply elem_of_cons in H2 as [-> | H2]; [done |].
      apply Hl2 in H2. congruence.
Qed.

Lemma names_map_None (w : World) (a : string) :
  _get_hap_names_map w !! a = None →
  ∀ d, is_hap_dir w d = true → has_name w a d = false.
Proof.
  intros Hm d Hd. pose proof (names_fold_lookup w (_get_hap_dirs w) ∅ a) as H.
  fold (_get_hap_names_map w) in H. rewrite Hm in H.
  destruct H as [_ H]. by apply H, is_hap_dir_elem_of.
Qed.

(** C6: [get_hap] looks for the alias among the numeric record directories
    first: an alias that names one resolves to it, whatever names the
    records carry. Only otherwise the name index decides: when some record
    carries the alias as its name, a record carrying it is returned, and
    when the alias is neither a record directory nor a name, the result is
    [None] (no exception). *)
Theorem get_hap_id_then_name (w : World) (hap_alias : string) :
  (is_hap_dir w hap_alias = true → get_hap w hap_alias = Some (mkHap hap_alias))
  ∧ (is_hap_dir w hap_alias = false →
     (∀ d, is_hap_dir w d = true → has_name w hap_alias d = true →
        ∃ d', get_hap w hap_alias = Some (mkHap d')
              ∧ is_hap_dir w d' = true ∧ has_name w hap_alias d' = true)
     ∧ ((∀ d, is_hap_dir w d = true → has_name w hap_alias d = false) →
        get_hap w hap_alias = None)).
Proof.
  unfold get_hap. split.
  - intros Hd. apply is_hap_dir_elem_of in Hd. by rewrite bool_decide_eq_true_2.
  - intros Hd. rewrite bool_decide_eq_false_2.
    2: { intros Hin. apply is_hap_dir_elem_of in Hin. congruence. }
    split.
    + intros d Hdir Hname.
      destruct (_get_hap_names_map w !! hap_alias) as [d' |] eqn:Hm.
      * exists d'. apply names_map_Some in Hm as (? & ? & _). done.
      * pose proof (names_map_None w hap_alias Hm d Hdir). congruence.
    + intros Hnone.
      destruct (_get_hap_names_map w !! hap_alias) as [d' |] eqn:Hm; [| done].
      apply names_map_Some in Hm as (Hd' & Hn' & _).
      apply Hnone in Hd'. congruence.
Qed.

(** C10, as stated, fails: records 1 and 3 both carry the name "2", and
    resolving "2" returns record 2, which does not carry it. *)
Lemma get_hap_name_shadowed_by_id :
  has_name w_collide "2" "1" = true ∧ has_name w_collide "2" "3" = true
  ∧ is_hap_dir w_collide "1" = true ∧ is_hap_dir w_collide "3" = true
  ∧ get_hap w_collide "2" = Some (mkHap "2")
  ∧ has_name w_collide "2" "2" = false
  ∧ (int "2" < int "3")%N.
Proof. vm_compute. done. Qed.

(** C10, amended: when records carry the same name and that name is not
    itself a numeric record directory, [get_hap] on the name returns a
    record that carries it and whose numeric id is the highest among the
    records that carry it. *)
Theorem get_hap_name_highest_id (w : World) (name d0 : string) :
  is_hap_dir w name = false →
  is_hap_dir w d0 = true → has_name w name d0 = true →
  ∃ d, get_hap w name = Some (mkHap d)
       ∧ _get_hap_names_map w !! name = Some d
       ∧ is_hap_dir w d = true ∧ has_name w name d = true
       ∧ ∀ d', is_hap_dir w d' = true → has_name w name d' = true →
               (int d' ≤ int d)%N.
Proof.
  intros Hn Hd0 Hn0. unfold get_hap. rewrite bool_decide_eq_false_2.
  2: { intros Hin. apply is_hap_dir_elem_of in Hin. congruence. }
  destruct (_get_hap_names_map w !! name) as [d |] eqn:Hm.
  - exists d. apply names_map_Some in Hm as (? & ? & ?). done.
  - pose proof (names_map_None w name Hm d0 Hd0). congruence.
Qed.

Lemma get_hap_name_highest_id_witness :
  ∃ d, get_hap w_names "nap" = Some (mkHap d)
       ∧ _get_hap_names_map w_names !! "nap" = Some d
       ∧ is_hap_dir w_names d = true ∧ has_name w_names "nap" d = true
       ∧ ∀ d', is_hap_dir w_names d' = true → has_name w_names "nap" d' = true →
               (int d' ≤ int d)%N.
Proof. apply (get_hap_name_highest_id w_names "nap" "2"); vm_compute; reflexivity. Defined.

(** ** The detached flow *)

Lemma hap_files_update_files (h : Hap) (g : HapFiles → HapFiles) (w : World) :
  hap_files (update_files h g w) h = g <$> hap_files w h.
Proof. unfold hap_files, update_files. simpl. apply lookup_alter_eq. Qed.

Lemma run_hap_step_inv (o : Oracle) (h : Hap) (c : Pc * World) :
  run_hap_inv h c → run_hap_inv h (run_hap_step o h c).
Proof.
  destruct c as [pc w]. unfold run_hap_inv, run_hap_step, pid_before_rc. simpl.
  intros [Hrc Hpc]. destruct pc; simpl.
  - destruct (hap_files w h) as [f |] eqn:Ef; simpl; [| done].
    unfold hap_rc, hap_pid in *. rewrite hap_files_update_files, Ef in *.
    simpl in *. done.
  - destruct (popen_pid o); simpl; done.
  - unfold bind_pid, hap_rc, hap_pid in *. rewrite hap_files_update_files.
    destruct Hpc as [f Ef]. rewrite Ef. simpl. split; eauto.
  - unfold hap_rc, hap_pid in *. rewrite hap_files_update_files.
    change (hap_files (mkWorld (fs w) (delete pid (procs w))) h)
      with (hap_files w h).
    destruct (hap_files w h) as [f |]; simpl in *; done.
  - destruct (hap_files w h) as [f |] eqn:Ef; simpl; [| done].
    unfold hap_rc, hap_pid in *. rewrite hap_files_update_files, Ef in *.
    simpl in *. done.
  - done.
  - done.
Qed.

Lemma run_hap_at_inv (o : Oracle) (h : Hap) (w : World) (n : nat) :
  pid_before_rc w h → run_hap_inv h (run_hap_at o h n w).
Proof.
  intros Hw. unfold run_hap_at. induction n as [| n IH]; simpl.
  - by split.
  - by apply run_hap_step_inv.
Qed.

(** Only the last statement of [run_hap] writes the exit code. *)
Lemma run_hap_step_rc (o : Oracle) (h : Hap) (c : Pc * World) :
  hap_rc c.2 h = None → is_Some (hap_rc (run_hap_step o h c).2 h) →
  ∃ code, c.1 = AtWriteRc code.
Proof.
  destruct c as [pc w]. unfold run_hap_step. simpl. intros Hn Hs.
  destruct pc; simpl in Hs; try (by eexists); exfalso.
  - destruct (hap_files w h) as [f |] eqn:Ef; simpl in Hs.
    + unfold hap_rc in *. rewrite hap_files_update_files in Hs.
      rewrite Ef in *. simpl in *. rewrite Hn in Hs. by destruct Hs.
    + rewrite Hn in Hs. by destruct Hs.
  - unfold hap_rc, hap_files in *.
    destruct (popen_pid o); simpl in Hs; rewrite Hn in Hs; by destruct Hs.
  - unfold bind_pid, hap_rc in *. rewrite hap_files_update_files in Hs.
    destruct (hap_files w h) as [f |]; simpl in *; rewrite ?Hn in Hs; by destruct Hs.
  - unfold hap_rc in *. rewrite hap_files_update_files in Hs.
    change (hap_files (mkWorld (fs w) (delete pid (procs w))) h)
      with (hap_files w h) in Hs.
    destruct (hap_files w h) as [f |]; simpl in *; rewrite ?Hn in Hs; by destruct Hs.
  - rewrite Hn in Hs. by destruct Hs.
  - rewrite Hn in Hs. by destruct Hs.
Qed.

(** The order of the two writes, from any record that does not already
    show an exit code without a pid. *)
Lemma run_hap_at_order (o : Oracle) (h : Hap) (w : World) (n : nat) :
  pid_before_rc w h →
  pid_before_rc (run_hap_at o h n w).2 h
  ∧ (∀ code, (run_hap_at o h n w).1 = AtWriteRc code →
       is_Some (hap_pid (run_hap_at o h n w).2 h))
  ∧ (hap_rc w h = None → is_Some (hap_rc (run_hap_at o h n w).2 h) →
     ∃ m, m < n ∧ is_Some (hap_pid (run_hap_at o h m w).2 h)
          ∧ hap_rc (run_hap_at o h m w).2 h = None).
Proof.
  intros Hw. split; [| split].
  - by destruct (run_hap_at_inv o h w n Hw).
  - intros code Hpc. destruct (run_hap_at_inv o h w n Hw) as [_ H].
    by rewrite Hpc in H.
  - intros H0. induction n as [| n IH]; intros Hn.
    + simpl in Hn. rewrite H0 in Hn. by destruct Hn.
    + destruct (hap_rc (run_hap_at o h n w).2 h) as [c |] eqn:Ec.
      * destruct IH as (m & Hm & ?); [by eexists |]. exists m. split; [lia | done].
      * exists n. split; [lia |]. split; [| done].
        change (run_hap_at o h (S n) w)
          with (run_hap_step o h (run_hap_at o h n w)) in Hn.
        apply run_hap_step_rc in Hn as [code Hpc]; [| done].
        destruct (run_hap_at_inv o h w n Hw) as [_ H]. by rewrite Hpc in H.
Qed.

Example run_hap_trace_example :
  (run_hap_at (mkOracle (Some 4242%Z) 3 "" 0) (mkHap "1") 3 w_fresh).1 = AtWait 4242
  ∧ hap_pid (run_hap_at (mkOracle (Some 4242%Z) 3 "" 0) (mkHap "1") 3 w_fresh).2 (mkHap "1")
    = Some 4242%Z
  ∧ hap_rc (run_hap_at (mkOracle (Some 4242%Z) 3 "" 0) (mkHap "1") 3 w_fresh).2 (mkHap "1")
    = None
  ∧ hap_rc (run_hap (mkOracle (Some 4242%Z) 3 "" 0) (mkHap "1") w_fresh).2 (mkHap "1")
    = Some 3%Z.
Proof. vm_compute. done. Qed.

(** ** Launch *)

(** [create_hap] never fails: the directory of the next id is free. *)
Lemma create_hap_eq (w : World) (cmd : string) (name : option string) :
  create_hap cmd name w
  = mkRes (Ret (next_hap w)) (created w cmd name) [Mkdir (hid (next_hap w))].
Proof.
  unfold create_hap, mkdir_hap, M_bind, get_world. simpl.
  rewrite next_hap_dir_fresh. reflexivity.
Qed.

Lemma hap_files_created (w : World) (cmd : string) (name : option string) :
  hap_files (created w cmd name) (next_hap w)
  = Some (mkFiles name cmd None None None None).
Proof. unfold hap_files, created. simpl. apply lookup_insert_eq. Qed.

Lemma run_hap_at_stuck (o : Oracle) (h : Hap) (c : Pc * World) (n : nat) :
  run_hap_step o h c = c → Nat.iter n (run_hap_step o h) c = c.
Proof. intros Hc. induction n as [| n IH]; simpl; [done |]. by rewrite IH. Qed.

(** The flow when [Popen] raises. *)
Lemma run_hap_at_spawn_failure (code : Z) (text : string) (k : nat) (h : Hap)
    (w : World) (n : nat) :
  is_Some (hap_files w h) →
  run_hap_at (mkOracle None code text k) h n w
  = match n with
    | 0 => (AtOpen, w)
    | 1 => (AtPopen, update_files h set_sinks w)
    | _ => (Raised OSError, update_files h set_sinks w)
    end.
Proof.
  intros [f Hf]. unfold run_hap_at.
  destruct n as [| [| n]]; [done | |].
  - simpl. unfold run_hap_step. simpl. by rewrite Hf.
  - replace (S (S n)) with (n + 2) by lia. rewrite Nat.iter_add.
    assert (Nat.iter 2 (run_hap_step (mkOracle None code text k) h) (AtOpen, w)
            = (Raised OSError, update_files h set_sinks w)) as ->.
    { simpl. unfold run_hap_step at 2. simpl. by rewrite Hf. }
    by apply run_hap_at_stuck.
Qed.

Lemma run_hap_at_spawned (o : Oracle) (pid : Z) (h : Hap) (w : World) (n : nat) :
  is_Some (hap_files w h) → popen_pid o = Some pid →
  run_hap_at o h n w
  = match n with
    | 0 => (AtOpen, w)
    | 1 => (AtPopen, update_files h set_sinks w)
    | 2 => (AtBind pid, spawned h pid w)
    | 3 => (AtWait pid, bind_pid h pid (spawned h pid w))
    | 4 => (AtWriteRc (retcode o), exited o h pid w)
    | _ => (Finished, update_files h (set_rc (retcode o)) (exited o h pid w))
    end.
Proof.
  intros [f Hf] Hp. unfold run_hap_at.
  assert (Nat.iter 4 (run_hap_step o h) (AtOpen, w)
          = (AtWriteRc (retcode o), exited o h pid w)) as H4.
  { simpl. unfold run_hap_step at 4. simpl. rewrite Hf.
    unfold run_hap_step at 3. simpl. rewrite Hp. done. }
  assert (Nat.iter 5 (run_hap_step o h) (AtOpen, w)
          = (Finished, update_files h (set_rc (retcode o)) (exited o h pid w))) as H5.
  { change (Nat.iter 5 (run_hap_step o h) (AtOpen, w))
      with (run_hap_step o h (Nat.iter 4 (run_hap_step o h) (AtOpen, w))).
    rewrite H4. unfold run_hap_step. simpl.
    unfold exited, bind_pid, spawned.
    rewrite !hap_files_update_files.
    unfold hap_files at 1. simpl. rewrite !lookup_alter_eq.
    unfold hap_files in Hf. rewrite Hf. done. }
  destruct n as [| [| [| [| [| n]]]]].
  - done.
  - simpl. unfold run_hap_step. simpl. by rewrite Hf.
  - simpl. unfold run_hap_step at 2. simpl. rewrite Hf.
    unfold run_hap_step. simpl. by rewrite Hp.
  - simpl. unfold run_hap_step at 3. simpl. rewrite Hf.
    unfold run_hap_step at 2. simpl. by rewrite Hp.
  - done.
  - replace (S (S (S (S (S n))))) with (n + 5) by lia.
    rewrite Nat.iter_add, H5. by apply run_hap_at_stuck.
Qed.

Lemma run_spawn_failure (w : World) (cmd : string) (name : option string)
    (check : bool) (code : Z) (text : string) (k : nat) :
  outcome (run (mkOracle None code text k) cmd name check w) = SysExit 0
  ∧ events (run (mkOracle None code text k) cmd name check w)
    = [Mkdir (hid (next_hap w)); Fork (next_hap w)].
Proof.
  unfold run, M_bind. rewrite create_hap_eq. simpl.
  destruct check; [| done]. simpl.
  unfold _check_fast_failure, M_bind, wait_created_rc. simpl.
  rewrite run_hap_at_spawn_failure by (rewrite hap_files_created; by eexists).
  assert (∀ w', hap_files w' (next_hap w) = hap_files (created w cmd name) (next_hap w)
                ∨ hap_files w' (next_hap w)
                  = set_sinks <$> hap_files (created w cmd name) (next_hap w) →
                bool_decide (is_Some (hap_rc w' (next_hap w))) = false) as Hno.
  { intros w' Hw'. apply bool_decide_eq_false_2. unfold hap_rc.
    destruct Hw' as [-> | ->]; rewrite hap_files_created; simpl; by intros [? ?]. }
  destruct k as [| [| k]]; simpl; rewrite Hno; simpl; auto;
    right; apply hap_files_update_files.
Qed.

(** With a process spawned, the record shows no exit code before the last
    statement of [run_hap], and pid and exit code after it. *)
Lemma run_hap_at_spawned_rc (o : Oracle) (pid : Z) (w : World) (cmd : string)
    (name : option string) (n : nat) :
  popen_pid o = Some pid →
  hap_rc (run_hap_at o (next_hap w) n (created w cmd name)).2 (next_hap w)
  = if bool_decide (n < 5) then None else Some (retcode o).
Proof.
  intros Hp.
  rewrite (run_hap_at_spawned o pid) by (rewrite ?hap_files_created; by eauto).
  destruct n as [| [| [| [| [| n]]]]]; by files_simpl.
Qed.

Lemma run_hap_spawned (o : Oracle) (pid : Z) (w : World) (cmd : string)
    (name : option string) :
  popen_pid o = Some pid →
  (run_hap o (next_hap w) (created w cmd name)).1 = Finished
  ∧ hap_files (run_hap o (next_hap w) (created w cmd name)).2 (next_hap w)
    = Some (mkFiles name cmd (Some pid) (Some (retcode o)) (Some "")
                    (Some (stderr_text o)))
  ∧ procs (run_hap o (next_hap w) (created w cmd name)).2 !! pid = None.
Proof.
  intros Hp. unfold run_hap.
  rewrite (run_hap_at_spawned o pid) by (rewrite ?hap_files_created; by eauto).
  split; [done |]. split; [by files_simpl |].
  simpl. apply lookup_delete_eq.
Qed.

(** When the record of a launch shows an exit code, the process it was
    bound to is gone: the code is written after [proc.wait()] returned. *)
Lemma launch_rc_after_exit (o : Oracle) (w : World) (cmd : string)
    (name : option string) (n : nat) :
  is_Some (hap_rc (run_hap_at o (next_hap w) n (created w cmd name)).2 (next_hap w)) →
  hap_proc (run_hap_at o (next_hap w) n (created w cmd name)).2 (next_hap w) = None.
Proof.
  destruct (popen_pid o) as [pid |] eqn:Hp.
  - rewrite (run_hap_at_spawned_rc o pid) by done.
    case_bool_decide as Hn; [by intros [? ?] | intros _].
    rewrite (run_hap_at_spawned o pid) by (rewrite ?hap_files_created; by eauto).
    assert (n = 5 + (n - 5)) as -> by lia. cbn [Nat.add snd].
    unfold hap_proc. files_simpl. by rewrite lookup_delete_eq.
  - destruct o as [p c t k]. simpl in Hp. subst p.
    rewrite run_hap_at_spawn_failure by (rewrite hap_files_created; by eexists).
    destruct n as [| [| n]]; files_simpl; by intros [? ?].
Qed.

(** C1: a launch creates a record with neither pid nor exit code and runs
    [run_hap] on it. At every point of that flow (after any number [n] of
    its statements, the finished flow included) a record that shows an
    exit code shows a pid; the pid is already bound when the flow stands
    before the write of the exit code; and whenever the exit code shows,
    an earlier point of the flow shows the pid without it: the bind comes
    strictly first. When [Popen] returns a process the flow ends with both
    written. *)
Theorem launch_binds_pid_before_rc (o : Oracle) (w : World) (cmd : string)
    (name : option string) :
  let hap := next_hap w in
  let w1 := created w cmd name in
  create_hap cmd name w = mkRes (Ret hap) w1 [Mkdir (hid hap)]
  ∧ hap_pid w1 hap = None ∧ hap_rc w1 hap = None
  ∧ (∀ n,
       pid_before_rc (run_hap_at o hap n w1).2 hap
       ∧ (∀ code, (run_hap_at o hap n w1).1 = AtWriteRc code →
            is_Some (hap_pid (run_hap_at o hap n w1).2 hap))
       ∧ (is_Some (hap_rc (run_hap_at o hap n w1).2 hap) →
          ∃ m, m < n ∧ is_Some (hap_pid (run_hap_at o hap m w1).2 hap)
               ∧ hap_rc (run_hap_at o hap m w1).2 hap = None))
  ∧ (∀ pid, popen_pid o = Some pid →
       (run_hap o hap w1).1 = Finished
       ∧ hap_pid (run_hap o hap w1).2 hap = Some pid
       ∧ hap_rc (run_hap o hap w1).2 hap = Some (retcode o)).
Proof.
  intros hap w1.
  assert (hap_pid w1 hap = None ∧ hap_rc w1 hap = None) as [Hpid Hrc].
  { unfold hap_pid, hap_rc, w1, hap. by rewrite hap_files_created. }
  split; [apply create_hap_eq |]. split; [done |]. split; [done |]. split.
  - intros n.
    assert (pid_before_rc w1 hap) as Hw.
    { unfold pid_before_rc. rewrite Hrc. by intros [? ?]. }
    destruct (run_hap_at_order o hap w1 n Hw) as (H1 & H2 & H3). auto.
  - intros pid Hp.
    destruct (run_hap_spawned o pid w cmd name Hp) as (Hpc & Hf & _).
    fold hap w1 in Hpc, Hf. unfold hap_pid, hap_rc. by rewrite Hf.
Qed.

Lemma run_nonzero_exit (w : World) (cmd : string) (name : option string)
    (check : bool) (pid code : Z) (text : string) (k : nat) :
  code ≠ 0%Z →
  run (mkOracle (Some pid) code text k) cmd name check w
  = if check && bool_decide (5 ≤ k)%nat then
      mkRes (SysExit 1)
            (run_hap (mkOracle (Some pid) code text k) (next_hap w)
                     (created w cmd name)).2
            [Mkdir (hid (next_hap w)); Fork (next_hap w); Print MsgFastFailure;
             Print (MsgText (Some text))]
    else
      mkRes (SysExit 0)
            (if check then
               (run_hap_at (mkOracle (Some pid) code text k) (next_hap w) k
                           (created w cmd name)).2
             else created w cmd name)
            [Mkdir (hid (next_hap w)); Fork (next_hap w)].
Proof.
  intros Hc. unfold run, M_bind. rewrite create_hap_eq. simpl.
  destruct check; [| done]. simpl.
  unfold _check_fast_failure, M_bind, wait_created_rc. simpl.
  rewrite (run_hap_at_spawned_rc _ pid) by done. simpl.
  destruct (decide (k < 5)) as [Hk | Hk].
  - rewrite (bool_decide_eq_true_2 (k < 5)) by done. simpl.
    rewrite (bool_decide_eq_false_2 (5 ≤ k)%nat) by lia. done.
  - rewrite (bool_decide_eq_false_2 (k < 5)) by done. simpl.
    rewrite (bool_decide_eq_false_2 (Some code = Some 0%Z)) by congruence. simpl.
    rewrite (bool_decide_eq_true_2 (5 ≤ k)%nat) by lia.
    unfold run_hap.
    rewrite !(run_hap_at_spawned _ pid) by (rewrite ?hap_files_created; by eauto).
    assert (k = 5 + (k - 5)) as -> by lia. simpl. do 3 f_equal.
    by files_simpl.
Qed.

(** C7, as stated, fails: when [Popen] raises, the launching flow prints
    nothing and exits with status 0, fast-failure check or not; what the
    check reports at once is the non-zero exit of a process that did
    start (such as the 127 of a shell that does not find the command). *)
Lemma spawn_failure_not_reported :
  outcome (run (mkOracle None 0 "" 5) "job" None true (mkWorld ∅ ∅)) = SysExit 0
  ∧ events (run (mkOracle None 0 "" 5) "job" None true (mkWorld ∅ ∅))
    = [Mkdir "1"; Fork (mkHap "1")]
  ∧ (run_hap (mkOracle None 0 "" 5) (mkHap "1")
             (created (mkWorld ∅ ∅) "job" None)).1 = Raised OSError
  ∧ outcome (run (mkOracle (Some 7%Z) 127 "sh: job: not found" 5) "job" None true
                 (mkWorld ∅ ∅)) = SysExit 1.
Proof. vm_compute. done. Qed.

(** C7, amended: a spawn failure and a non-zero exit leave different
    traces. When [Popen] raises, the detached flow ends with the exception
    before any pid or exit code is written, and the launching flow, with or
    without the fast-failure check, prints nothing and exits with status 0.
    When the process starts and exits with a non-zero code, [run_hap] ends
    normally with the pid and the exit code written (status FAILED by the
    rule of the spec); the launching flow reports it (message, error
    output, exit status 1) when the check is on and the marker is there at
    the end of its wait, and exits with status 0 otherwise. *)
Theorem spawn_failure_and_nonzero_exit (w : World) (cmd : string)
    (name : option string) (check : bool) (pid code : Z) (text : string) (k : nat) :
  let hap := next_hap w in
  let w1 := created w cmd name in
  (let o := mkOracle None code text k in
   (run_hap o hap w1).1 = Raised OSError
   ∧ (∀ n, hap_pid (run_hap_at o hap n w1).2 hap = None
           ∧ hap_rc (run_hap_at o hap n w1).2 hap = None)
   ∧ outcome (run o cmd name check w) = SysExit 0
   ∧ events (run o cmd name check w) = [Mkdir (hid hap); Fork hap])
  ∧ (let o := mkOracle (Some pid) code text k in
     code ≠ 0%Z →
     (run_hap o hap w1).1 = Finished
     ∧ hap_pid (run_hap o hap w1).2 hap = Some pid
     ∧ hap_rc (run_hap o hap w1).2 hap = Some code
     ∧ hap_status (run_hap o hap w1).2 hap = FAILED
     ∧ (∀ n, n < 5 → hap_rc (run_hap_at o hap n w1).2 hap = None)
     ∧ (check = true → (5 ≤ k)%nat →
        outcome (run o cmd name check w) = SysExit 1
        ∧ events (run o cmd name check w)
          = [Mkdir (hid hap); Fork hap; Print MsgFastFailure;
             Print (MsgText (Some text))])
     ∧ (check = false ∨ k < 5 →
        outcome (run o cmd name check w) = SysExit 0
        ∧ events (run o cmd name check w) = [Mkdir (hid hap); Fork hap])).
Proof.
  intros hap w1. split.
  - intros o. split; [| split].
    + unfold run_hap, o.
      rewrite run_hap_at_spawn_failure; [done |].
      unfold w1, hap. rewrite hap_files_created. by eexists.
    + intros n. unfold o.
      rewrite run_hap_at_spawn_failure
        by (unfold w1, hap; rewrite hap_files_created; by eexists).
      unfold w1, hap. destruct n as [| [| n]]; by files_simpl.
    + apply run_spawn_failure.
  - intros o Hc.
    destruct (run_hap_spawned o pid w cmd name eq_refl) as (Hpc & Hf & _).
    fold hap w1 in Hpc, Hf.
    split; [done |]. split; [unfold hap_pid; by rewrite Hf |].
    split; [unfold hap_rc; by rewrite Hf |]. split; [| split; [| split]].
    + unfold hap_status. rewrite Hf. simpl. unfold spec_status_of. simpl.
      by rewrite bool_decide_eq_false_2.
    + intros n Hn. unfold hap, w1.
      rewrite (run_hap_at_spawned_rc o pid) by done.
      by rewrite bool_decide_eq_true_2.
    + intros -> Hk. unfold o. rewrite run_nonzero_exit by done. simpl.
      by rewrite bool_decide_eq_true_2.
    + intros Hk. unfold o. rewrite run_nonzero_exit by done.
      destruct Hk as [-> | Hk]; simpl; [done |].
      rewrite bool_decide_eq_false_2 by lia. by rewrite andb_false_r.
Qed.

(** ** Pause and resume *)

Lemma resume_hap_stopped (h : Hap) (w : World) (pid : Z) :
  hap_proc w h = Some (pid, STATUS_STOPPED) →
  resume_hap h w
  = mkRes (Ret tt) (mkWorld (fs w) (<[pid := STATUS_RUNNING]> (procs w)))
          [Resume pid; Print (MsgResumed h)].
Proof. intros Hp. unfold resume_hap, M_bind, get_world. simpl. by rewrite Hp. Qed.

Lemma resume_hap_not_stopped (h : Hap) (w : World) :
  (∀ pid, hap_proc w h ≠ Some (pid, STATUS_STOPPED)) →
  resume_hap h w = mkRes (SysExit 1) w [Print (MsgCannotResume h)].
Proof.
  intros Hp. unfold resume_hap, M_bind, get_world. simpl.
  destruct (hap_proc w h) as [[pid st] |] eqn:E; [| done].
  destruct st; try done. by destruct (Hp pid).
Qed.

Lemma pause_hap_found (h : Hap) (w : World) (pid : Z) (st : ProcStatus) :
  hap_proc w h = Some (pid, st) →
  pause_hap h w
  = mkRes (Ret tt) (mkWorld (fs w) (<[pid := STATUS_STOPPED]> (procs w)))
          [Suspend pid; Print (MsgPaused h)].
Proof. intros Hp. unfold pause_hap, M_bind, get_world. simpl. by rewrite Hp. Qed.

Lemma pause_hap_not_found (h : Hap) (w : World) :
  hap_proc w h = None →
  pause_hap h w = mkRes (SysExit 1) w [Print (MsgCannotPause h)].
Proof. intros Hp. unfold pause_hap, M_bind, get_world. simpl. by rewrite Hp. Qed.

Lemma hap_proc_Some (w : World) (h : Hap) (pid : Z) (st : ProcStatus) :
  hap_proc w h = Some (pid, st) ↔ hap_pid w h = Some pid ∧ procs w !! pid = Some st.
Proof.
  unfold hap_proc. destruct (hap_pid w h) as [p |]; simpl.
  - destruct (procs w !! p) as [s |] eqn:E; simpl.
    + split; [intros [= -> ->]; done | intros [[= ->] Hs]; congruence].
    + split; [done | intros [[= ->] Hs]; congruence].
  - split; [done | by intros [? _]].
Qed.


(** The derived status of the spec, read off the facts it is derived from. *)
Lemma spec_status_cases (w : World) (h : Hap) :
  match hap_status w h with
  | RUNNING =>
      hap_rc w h = None
      ∧ ∃ pid st, hap_proc w h = Some (pid, st) ∧ st ≠ STATUS_STOPPED
  | PAUSED =>
      hap_rc w h = None ∧ ∃ pid, hap_proc w h = Some (pid, STATUS_STOPPED)
  | UNBOUND => hap_rc w h = None ∧ hap_proc w h = None
  | SUCCESS => hap_rc w h = Some 0%Z
  | FAILED => ∃ code, hap_rc w h = Some code ∧ code ≠ 0%Z
  end.
Proof.
  unfold hap_status, hap_rc, hap_proc, hap_pid. simpl. unfold spec_status_of.
  destruct (hap_files w h ≫= rc_file) as [c |].
  - case_bool_decide; [by subst | by exists c].
  - destruct (hap_files w h ≫= pid_file) as [p |]; simpl; [| done].
    destruct (procs w !! p) as [[] |]; simpl; split; try done; eauto.
Qed.

(** [pause_hap] does not look at the state of the process it finds: a
    record that is already PAUSED is suspended once more. *)
Lemma pause_hap_paused (h : Hap) (w : World) :
  hap_status w h = PAUSED →
  ∃ pid, pause_hap h w
         = mkRes (Ret tt) (mkWorld (fs w) (<[pid := STATUS_STOPPED]> (procs w)))
                 [Suspend pid; Print (MsgPaused h)].
Proof.
  intros Hs. pose proof (spec_status_cases w h) as Hc. rewrite Hs in Hc.
  destruct Hc as (_ & pid & Hp). exists pid. by apply (pause_hap_found h w pid STATUS_STOPPED).
Qed.

(** C9: [pause_hap] goes through exactly when the pid of the record
    names a live process ([hap.proc] is not [None]); it then suspends that
    process, and otherwise it suspends nothing, reports that the hap is
    not running and exits with status 1. With the statuses of the rule of
    the spec: an active record is always suspended and then shows PAUSED,
    also when it is PAUSED already; an UNBOUND record is always refused;
    an inactive record is refused exactly when its pid names no live
    process, so a record with an exit code is refused only as long as the
    pid it recorded has not come to name a live process again. *)
Theorem pause_hap_iff_live_process (h : Hap) (w : World) :
  (outcome (pause_hap h w) = Ret tt ↔ is_Some (hap_proc w h))
  ∧ (∀ pid st, hap_proc w h = Some (pid, st) →
       pause_hap h w
       = mkRes (Ret tt) (mkWorld (fs w) (<[pid := STATUS_STOPPED]> (procs w)))
               [Suspend pid; Print (MsgPaused h)])
  ∧ (hap_proc w h = None →
       pause_hap h w = mkRes (SysExit 1) w [Print (MsgCannotPause h)])
  ∧ (hap_active w h = true →
       ∃ pid, hap_pid w h = Some pid
         ∧ pause_hap h w
           = mkRes (Ret tt) (mkWorld (fs w) (<[pid := STATUS_STOPPED]> (procs w)))
                   [Suspend pid; Print (MsgPaused h)]
         ∧ hap_status (world (pause_hap h w)) h = PAUSED)
  ∧ (hap_status w h = UNBOUND →
       pause_hap h w = mkRes (SysExit 1) w [Print (MsgCannotPause h)])
  ∧ (hap_active w h = false →
       (pause_hap h w = mkRes (SysExit 1) w [Print (MsgCannotPause h)]
        ↔ hap_proc w h = None)
       ∧ (is_Some (hap_proc w h) → is_Some (hap_rc w h))).
Proof.
  pose proof (spec_status_cases w h) as Hc.
  split; [| split; [| split; [| split; [| split]]]].
  - destruct (hap_proc w h) as [[pid st] |] eqn:Hp.
    + rewrite (pause_hap_found h w pid st Hp). cbn [outcome]. split; [by eexists | done].
    + rewrite (pause_hap_not_found h w Hp). cbn [outcome].
      split; [done | by intros [? ?]].
  - intros pid st Hp. by apply (pause_hap_found h w pid st).
  - apply pause_hap_not_found.
  - intros Ha.
    assert (hap_rc w h = None ∧ ∃ pid st, hap_proc w h = Some (pid, st))
      as (Hrc & pid & st & Hp).
    { unfold hap_active in Ha. apply bool_decide_eq_true in Ha.
      destruct Ha as [Hs | Hs]; rewrite Hs in Hc.
      - destruct Hc as (Hrc & pid & st & Hp & _). split; [done |]. by exists pid, st.
      - destruct Hc as (Hrc & pid & Hp). split; [done |]. by exists pid, STATUS_STOPPED. }
    exists pid. pose proof Hp as Hp'. apply hap_proc_Some in Hp' as [Hpid _].
    split; [done |]. rewrite (pause_hap_found h w pid st Hp).
    split; [done |]. cbn [world].
    unfold hap_status, hap_rc, hap_pid, hap_files in *. simpl in *.
    unfold spec_status_of. rewrite Hrc, Hpid. by rewrite lookup_insert_eq.
  - intros Hs. rewrite Hs in Hc. destruct Hc as [_ Hp]. by apply pause_hap_not_found.
  - intros Ha. split.
    + split; [| apply pause_hap_not_found].
      destruct (hap_proc w h) as [[pid st] |] eqn:Hp; [| done].
      rewrite (pause_hap_found h w pid st Hp). by intros [=].
    + intros [p Hp]. unfold hap_active in Ha. apply bool_decide_eq_false in Ha.
      destruct (hap_status w h); try tauto.
      * destruct Hc as [_ Hnone]. by rewrite Hnone in Hp.
      * destruct Hc as (c & Hc & _). by eexists.
      * by eexists.
Qed.

(** Two records on which [pause_hap] goes through although the record is
    not "active and not already paused": a SUCCESS record whose pid names
    a live process again, of which that process is suspended, and a PAUSED
    record, which is suspended once more. *)
Lemma pause_hap_ignores_status :
  (hap_status w_recycled (mkHap "1") = SUCCESS
   ∧ hap_active w_recycled (mkHap "1") = false
   ∧ outcome (pause_hap (mkHap "1") w_recycled) = Ret tt
   ∧ events (pause_hap (mkHap "1") w_recycled)
     = [Suspend 7; Print (MsgPaused (mkHap "1"))]
   ∧ procs (world (pause_hap (mkHap "1") w_recycled)) !! 7%Z = Some STATUS_STOPPED)
  ∧ (hap_status w_recycled (mkHap "2") = PAUSED
     ∧ outcome (pause_hap (mkHap "2") w_recycled) = Ret tt
     ∧ events (pause_hap (mkHap "2") w_recycled)
       = [Suspend 8; Print (MsgPaused (mkHap "2"))]).
Proof. vm_compute. done. Qed.

Example pause_resume_example :
  hap_status w_jobs (mkHap "1") = RUNNING
  ∧ hap_status (world (pause_hap (mkHap "1") w_jobs)) (mkHap "1") = PAUSED
  ∧ hap_status (world (resume_hap (mkHap "1") (world (pause_hap (mkHap "1") w_jobs))))
               (mkHap "1") = RUNNING
  ∧ outcome (resume_hap (mkHap "1") w_jobs) = SysExit 1
  ∧ outcome (pause_hap (mkHap "2") w_jobs) = SysExit 1
  ∧ outcome (pause_hap (mkHap "4") w_jobs) = SysExit 1
  ∧ outcome (resume_hap (mkHap "3") w_jobs) = SysExit 1.
Proof. vm_compute. done. Qed.

(** ** Cleaning *)

Lemma NoDup_get_haps (w : World) : NoDup (get_haps w).
Proof. unfold get_haps. apply (NoDup_fmap_2 _), NoDup_get_hap_dirs. Qed.

Lemma elem_of_get_haps (w : World) (h : Hap) :
  h ∈ get_haps w ↔ is_hap_dir w (hid h) = true.
Proof.
  unfold get_haps. destruct h as [d]. simpl.
  rewrite (list_elem_of_fmap_inj mkHap). symmetry. apply is_hap_dir_elem_of.
Qed.

Lemma is_hap_dir_files (w : World) (d : string) :
  is_hap_dir w d = true → is_Some (fs w !! d).
Proof.
  unfold is_hap_dir. rewrite andb_true_iff, bool_decide_eq_true. by intros [_ ?].
Qed.

Lemma remove_dirs_lookup (l : list Hap) (m : gmap string HapFiles) (d : string) :
  remove_dirs l m !! d = if bool_decide (mkHap d ∈ l) then None else m !! d.
Proof.
  unfold remove_dirs. revert m. induction l as [| h l IH]; intros m; cbn [foldl].
  - rewrite bool_decide_eq_false_2; [done |]. by intros H; inversion H.
  - rewrite IH. destruct (decide (mkHap d ∈ l)) as [Hin | Hin].
    + rewrite !bool_decide_eq_true_2; [done | set_solver | done].
    + rewrite (bool_decide_eq_false_2 (mkHap d ∈ l)) by done.
      destruct (decide (h = mkHap d)) as [-> | Hne].
      * rewrite bool_decide_eq_true_2 by set_solver. apply lookup_delete_eq.
      * rewrite bool_decide_eq_false_2.
        2: { intros [Heq | Hin']%elem_of_cons; [by subst | done]. }
        apply lookup_delete_ne. intros Heq. apply Hne. destruct h. simpl in *.
        by subst.
Qed.

(** Deleting the directories of distinct existing records, one after the
    other, raises nothing. *)
Lemma for_each_rmtree (l : list Hap) (w : World) :
  NoDup l → (∀ h, h ∈ l → is_Some (fs w !! hid h)) →
  for_each l rmtree w
  = mkRes (Ret tt) (mkWorld (remove_dirs l (fs w)) (procs w))
          ((λ h, Rmtree (hid h)) <$> l).
Proof.
  revert w. induction l as [| h l IH]; intros w Hnd Hex.
  - by destruct w.
  - apply NoDup_cons in Hnd as [Hh Hnd].
    simpl. unfold M_bind at 1. unfold rmtree at 1, M_bind, get_world. simpl.
    destruct (Hex h) as [f Hf]; [set_solver |]. rewrite Hf. simpl.
    rewrite IH; [done | done |].
    intros h' Hh'. simpl. rewrite lookup_delete_ne; [apply Hex; set_solver |].
    intros Heq. apply (inj hid) in Heq. by subst.
Qed.

Lemma filter_none {A} (P : A → Prop) `{∀ x, Decision (P x)} (l : list A) :
  (∀ x, x ∈ l → ¬ P x) → filter P l = [].
Proof.
  induction l as [| x l IH]; intros Hl; [done |].
  rewrite filter_cons_False by (apply Hl; set_solver).
  apply IH. intros y Hy. apply Hl. set_solver.
Qed.

Lemma filter_only {A} `{EqDecision A} (l : list A) (x : A) :
  NoDup l → x ∈ l → filter (λ y, y = x) l = [x].
Proof.
  induction l as [| y l IH]; intros Hnd Hx; [by inversion Hx |].
  apply NoDup_cons in Hnd as [Hy Hnd].
  destruct (decide (y = x)) as [-> | Hne].
  - rewrite filter_cons_True by done. f_equal.
    apply filter_none. intros z Hz ->. done.
  - rewrite filter_cons_False by done. apply IH; [done |].
    apply elem_of_cons in Hx as [Heq | Hx]; [by subst | done].
Qed.

(** [clean_one] deletes the record with the id of [hap], whatever its
    status. *)
Lemma clean_one_eq (hap : Hap) (verbose : bool) (w : World) :
  is_hap_dir w (hid hap) = true →
  clean_one hap verbose w
  = mkRes (Ret tt) (mkWorld (delete (hid hap) (fs w)) (procs w))
          (Rmtree (hid hap)
             :: if verbose then [Print (MsgDeletedHap (hid hap))] else []).
Proof.
  intros Hd. unfold clean_one, M_bind at 1, get_world. simpl.
  assert (filter (λ hap_arg, hid hap_arg = hid hap) (get_haps w) = [hap]) as ->.
  { rewrite <- (filter_only (get_haps w) hap).
    - apply list_filter_iff. intros h. split; [apply (inj hid) | by intros ->].
    - apply NoDup_get_haps.
    - by apply elem_of_get_haps. }
  unfold M_bind. rewrite for_each_rmtree.
  - simpl. by destruct verbose.
  - apply NoDup_singleton.
  - intros h Hh. apply list_elem_of_singleton in Hh as ->. by apply is_hap_dir_files.
Qed.

Section cleaning.
Context {collab : Collaborators}.

Lemma elem_of_cleaned (clean_all : bool) (w : World) (h : Hap) :
  h ∈ cleaned clean_all w
  ↔ is_hap_dir w (hid h) = true ∧ to_clean clean_all w h = true.
Proof.
  unfold cleaned. rewrite list_elem_of_filter, elem_of_get_haps, Is_true_true.
  tauto.
Qed.

Lemma clean_eq (clean_all : bool) (w : World) :
  clean clean_all w
  = mkRes (Ret tt)
          (mkWorld (remove_dirs (cleaned clean_all w) (fs w)) (procs w))
          (((λ h, Rmtree (hid h)) <$> cleaned clean_all w)
             ++ [Print (match cleaned clean_all w with
                        | [] => MsgNothingToClean
                        | _ => MsgDeletedFinished (length (cleaned clean_all w))
                        end)]).
Proof.
  unfold clean, M_bind at 1, get_world. simpl. fold (cleaned clean_all w).
  unfold M_bind. rewrite for_each_rmtree.
  - simpl. by destruct (cleaned clean_all w).
  - apply NoDup_filter, NoDup_get_haps.
  - intros h Hh. apply elem_of_cleaned in Hh as [Hd _]. by apply is_hap_dir_files.
Qed.

(** What [clean] leaves of the registry directory. *)
Lemma clean_fs_lookup (clean_all : bool) (w : World) (d : string) :
  fs (world (clean clean_all w)) !! d
  = if is_hap_dir w d && to_clean clean_all w (mkHap d) then None else fs w !! d.
Proof.
  rewrite clean_eq. cbn [world fs]. rewrite remove_dirs_lookup.
  destruct (is_hap_dir w d && to_clean clean_all w (mkHap d)) eqn:E.
  - rewrite bool_decide_eq_true_2; [done |].
    apply elem_of_cleaned. by apply andb_true_iff in E.
  - rewrite bool_decide_eq_false_2; [done |].
    intros [? ?]%elem_of_cleaned. simpl in *. apply andb_false_iff in E.
    destruct E; congruence.
Qed.

(** A record that [clean] leaves has the status it had. *)
Lemma clean_survivor (clean_all : bool) (w : World) (d : string) :
  is_hap_dir (world (clean clean_all w)) d = true →
  is_hap_dir w d = true
  ∧ to_clean clean_all w (mkHap d) = false
  ∧ hap_status (world (clean clean_all w)) (mkHap d) = hap_status w (mkHap d).
Proof.
  intros Hd. pose proof (clean_fs_lookup clean_all w d) as Hl.
  unfold is_hap_dir in Hd. apply andb_true_iff in Hd as [Hdig Hs].
  apply bool_decide_eq_true in Hs.
  destruct (is_hap_dir w d && to_clean clean_all w (mkHap d)) eqn:E.
  { rewrite Hl in Hs. by destruct Hs. }
  assert (is_hap_dir w d = true) as Hdir.
  { unfold is_hap_dir. rewrite Hdig. simpl. apply bool_decide_eq_true.
    by rewrite <- Hl. }
  split; [done |]. split.
  - rewrite Hdir in E. done.
  - unfold hap_status, hap_files. cbn [hid]. rewrite Hl.
    by rewrite clean_eq.
Qed.

(** [clean] twice in a row: the second call finds nothing to delete. *)
Lemma clean_twice (clean_all : bool) (w : World) :
  clean clean_all (world (clean clean_all w))
  = mkRes (Ret tt) (world (clean clean_all w)) [Print MsgNothingToClean].
Proof.
  assert (cleaned clean_all (world (clean clean_all w)) = []) as Hnil.
  { apply filter_none. intros h Hh%elem_of_get_haps Hc. apply Is_true_true in Hc.
    destruct h as [d]. apply clean_survivor in Hh as (_ & Hno & Hst).
    unfold to_clean in *. simpl in *. rewrite Hst in Hc. congruence. }
  rewrite (clean_eq clean_all (world (clean clean_all w))), Hnil.
  generalize (world (clean clean_all w)). by intros [m ps].
Qed.

(** C4: [clean] without [clean_all] deletes exactly the records whose
    derived status is SUCCESS: their directories are gone and nothing else
    of the registry changes; the FAILED ones go only with [clean_all]. A
    second [clean] right after the first deletes nothing. This holds for
    any derived status that is a function of the record's files and of the
    process table. *)
Theorem clean_deletes_success_only (w : World) :
  outcome (clean false w) = Ret tt
  ∧ procs (world (clean false w)) = procs w
  ∧ (∀ d, fs (world (clean false w)) !! d
          = if is_hap_dir w d && bool_decide (hap_status w (mkHap d) = SUCCESS)
            then None else fs w !! d)
  ∧ (∀ d, Rmtree d ∈ events (clean false w)
          ↔ is_hap_dir w d = true ∧ hap_status w (mkHap d) = SUCCESS)
  ∧ (∀ d, fs (world (clean true w)) !! d
          = if is_hap_dir w d
               && (bool_decide (hap_status w (mkHap d) = SUCCESS)
                   || bool_decide (hap_status w (mkHap d) = FAILED))
            then None else fs w !! d)
  ∧ clean false (world (clean false w))
    = mkRes (Ret tt) (world (clean false w)) [Print MsgNothingToClean].
Proof.
  split; [by rewrite clean_eq |]. split; [by rewrite clean_eq |].
  split; [| split; [| split]].
  - intros d. rewrite clean_fs_lookup. unfold to_clean.
    by rewrite andb_false_r, orb_false_r.
  - intros d. rewrite clean_eq. cbn [events].
    rewrite elem_of_app, list_elem_of_fmap, list_elem_of_singleton. split.
    + intros [(h & [= ->] & Hh) | [=]].
      apply elem_of_cleaned in Hh as [Hd Hc]. destruct h as [d]. simpl in *.
      split; [done |]. unfold to_clean in Hc.
      rewrite andb_false_r, orb_false_r in Hc. by apply bool_decide_eq_true in Hc.
    + intros [Hd Hs]. left. exists (mkHap d). split; [done |].
      apply elem_of_cleaned. split; [done |]. unfold to_clean.
      by rewrite bool_decide_eq_true_2.
  - intros d. rewrite clean_fs_lookup. unfold to_clean. by rewrite andb_true_r.
  - apply clean_twice.
Qed.

(** C5, amended: neither form of [clean] deletes a record whose derived
    status is active: its directory stays as it is and no [rmtree] is
    issued for it. [clean_one] has no such test: it deletes the record with
    the id of the hap it is given, whatever the status. *)
Theorem clean_keeps_active (w : World) (clean_all verbose : bool) (h : Hap) :
  hap_active w h = true →
  fs (world (clean clean_all w)) !! hid h = fs w !! hid h
  ∧ (Rmtree (hid h) ∉ events (clean clean_all w))
  ∧ (is_hap_dir w (hid h) = true →
     clean_one h verbose w
     = mkRes (Ret tt) (mkWorld (delete (hid h) (fs w)) (procs w))
             (Rmtree (hid h)
                :: if verbose then [Print (MsgDeletedHap (hid h))] else [])).
Proof.
  intros Ha.
  assert (to_clean clean_all w h = false) as Hno.
  { unfold hap_active in Ha. apply bool_decide_eq_true in Ha. unfold to_clean.
    destruct Ha as [-> | ->]; rewrite !bool_decide_eq_false_2 by done; done. }
  destruct h as [d]. cbn [hid]. split; [| split].
  - rewrite clean_fs_lookup, Hno. by rewrite andb_false_r.
  - rewrite clean_eq. cbn [events].
    rewrite elem_of_app, list_elem_of_fmap, list_elem_of_singleton.
    intros [(h' & [= ->] & Hh) | [=]].
    apply elem_of_cleaned in Hh as [_ Hc]. destruct h'. simpl in *. congruence.
  - apply (clean_one_eq (mkHap d)).
Qed.

End cleaning.

(** C5, as stated, fails: record 1 of [w_jobs] is RUNNING, and [clean_one]
    on it deletes its directory. *)
Lemma clean_one_deletes_running :
  hap_status w_jobs (mkHap "1") = RUNNING
  ∧ hap_active w_jobs (mkHap "1") = true
  ∧ outcome (clean_one (mkHap "1") false w_jobs) = Ret tt
  ∧ events (clean_one (mkHap "1") false w_jobs) = [Rmtree "1"]
  ∧ fs (world (clean_one (mkHap "1") false w_jobs)) !! "1" = None.
Proof. vm_compute. done. Qed.

Lemma clean_keeps_active_witness :
  fs (world (clean true w_jobs)) !! "1" = fs w_jobs !! "1"
  ∧ (Rmtree "1" ∉ events (clean true w_jobs))
  ∧ (is_hap_dir w_jobs "1" = true →
     clean_one (mkHap "1") true w_jobs
     = mkRes (Ret tt) (mkWorld (delete "1" (fs w_jobs)) (procs w_jobs))
             [Rmtree "1"; Print (MsgDeletedHap "1")]).
Proof.
  apply (clean_keeps_active w_jobs true true (mkHap "1")). vm_compute. reflexivity.
Defined.

Example clean_example :
  events (clean false w_jobs) = [Rmtree "2"; Print (MsgDeletedFinished 1)]
  ∧ events (clean true w_jobs)
    = [Rmtree "2"; Rmtree "3"; Print (MsgDeletedFinished 2)]
  ∧ _get_hap_dirs (world (clean false w_jobs)) = ["1"; "3"; "4"].
Proof. vm_compute. done. Qed.

(** ** Restart *)

Lemma get_hap_of_dir (w : World) (d : string) :
  is_hap_dir w d = true → get_hap w d = Some (mkHap d).
Proof.
  intros Hd. unfold get_hap. apply is_hap_dir_elem_of in Hd.
  by rewrite bool_decide_eq_true_2.
Qed.

(** [run] without the fast-failure check: the record is created, the
    detached flow is started and the launching flow exits. *)
Lemma run_no_check (o : Oracle) (cmd : string) (name : option string) (w : World) :
  run o cmd name false w
  = mkRes (SysExit 0) (created w cmd name)
          [Mkdir (hid (next_hap w)); Fork (next_hap w)].
Proof. unfold run, M_bind. by rewrite create_hap_eq. Qed.

Section restarting.
Context {collab : Collaborators}.

Lemma kill_if_active (hap : Hap) (w : World) :
  (if hap_active w hap then kill [hap] false else M_ret tt) w
  = mkRes (Ret tt) (killed hap w)
          (if hap_active w hap then [KillProcTree (hap_pid w hap)] else []).
Proof.
  unfold killed. destruct (hap_active w hap) eqn:Ha; [| done].
  unfold kill, kill_loop, M_bind, get_world. simpl. rewrite Ha. done.
Qed.

(** The loop ends after [n] polls that find the record active and one
    that does not, provided it is given that many. *)
Lemma poll_killed_ends (n fuel i : nat) (hap : Hap) (w : World) :
  (n ≤ fuel)%nat →
  (∀ k, (k ≤ n)%nat → is_hap_dir (env_run i k w) (hid hap) = true) →
  (∀ k, k < n → hap_active (env_run i k w) hap = true) →
  hap_active (env_run i n w) hap = false →
  poll_killed fuel i (hid hap) w = mkRes (Ret hap) (env_run i n w) [].
Proof.
  revert fuel i w. induction n as [| n IH]; intros fuel i w Hfuel Hdir Hact Hend.
  - destruct fuel; simpl in *.
    + rewrite get_hap_of_dir by (apply (Hdir 0); lia).
      destruct hap. simpl in *. by rewrite Hend.
    + rewrite get_hap_of_dir by (apply (Hdir 0); lia).
      destruct hap. simpl in *. by rewrite Hend.
  - destruct fuel as [| fuel]; [lia |]. simpl.
    rewrite get_hap_of_dir by (apply (Hdir 0); lia).
    assert (hap_active w (mkHap (hid hap)) = true) as ->.
    { destruct hap. apply (Hact 0). lia. }
    apply IH.
    + lia.
    + intros k Hk. apply (Hdir (S k)). lia.
    + intros k Hk. apply (Hact (S k)). lia.
    + done.
Qed.

(** Without that many polls the loop has not ended. *)
Lemma poll_killed_unfinished (n fuel i : nat) (hap : Hap) (w : World) :
  fuel < n →
  (∀ k, k < n → is_hap_dir (env_run i k w) (hid hap) = true) →
  (∀ k, k < n → hap_active (env_run i k w) hap = true) →
  outcome (poll_killed fuel i (hid hap) w) = Unfinished.
Proof.
  revert n i w. induction fuel as [| fuel IH]; intros n i w Hfuel Hdir Hact.
  - simpl. rewrite get_hap_of_dir by (apply (Hdir 0); lia).
    assert (hap_active w (mkHap (hid hap)) = true) as ->; [| done].
    destruct hap. apply (Hact 0). lia.
  - destruct n as [| n]; [lia |]. simpl.
    rewrite get_hap_of_dir by (apply (Hdir 0); lia).
    assert (hap_active w (mkHap (hid hap)) = true) as ->.
    { destruct hap. apply (Hact 0). lia. }
    apply (IH n).
    + lia.
    + intros k Hk. apply (Hdir (S k)). lia.
    + intros k Hk. apply (Hact (S k)). lia.
Qed.

(** [restart] on an existing record: the kill, then the rest in the world
    the kill leaves. *)
Lemma restart_unfold (o : Oracle) (fuel : nat) (hap : Hap) (w : World) (f : HapFiles) :
  hap_files w hap = Some f →
  restart o fuel hap w
  = after_events
      (if hap_active w hap then [KillProcTree (hap_pid w hap)] else [])
      (M_bind (poll_killed fuel 0 (hid hap))
             (λ hap_killed, clean_one hap_killed false ;;;
                            run o (cmd_file f) (name_file f) false)
             (killed hap w)).
Proof.
  intros Hf. unfold restart.
  rewrite (M_bind_ok get_world _ w w w []) by done. rewrite after_events_nil.
  unfold hap_cmd, hap_name. rewrite Hf. simpl.
  by rewrite (M_bind_ok _ _ _ tt (killed hap w) _ (kill_if_active hap w)).
Qed.

(** C2, amended: [restart] kills the record if its derived status is
    active; fetches it again by its id and polls, while the rest of the
    machine moves, until its derived status is inactive ([n] polls find it
    active, the next one does not); deletes its directory; and launches a
    job with the command and the name read at the start. The new record
    gets the id that [get_next_hap_id] gives once the old directory is
    gone, one more than the highest id left, which need not be a new one.
    With fewer than [n] polls allowed the loop has not ended. *)
Theorem restart_sequence (o : Oracle) (hap : Hap) (w : World) (f : HapFiles) (n : nat) :
  hap_files w hap = Some f →
  (∀ k, (k ≤ n)%nat → is_hap_dir (env_run 0 k (killed hap w)) (hid hap) = true) →
  (∀ k, k < n → hap_active (env_run 0 k (killed hap w)) hap = true) →
  hap_active (env_run 0 n (killed hap w)) hap = false →
  let w_gone := without hap (env_run 0 n (killed hap w)) in
  (∀ fuel, (n ≤ fuel)%nat →
     restart o fuel hap w
     = mkRes (SysExit 0) (created w_gone (cmd_file f) (name_file f))
             ((if hap_active w hap then [KillProcTree (hap_pid w hap)] else [])
                ++ [Rmtree (hid hap); Mkdir (hid (next_hap w_gone));
                    Fork (next_hap w_gone)]))
  ∧ (∀ fuel, fuel < n → outcome (restart o fuel hap w) = Unfinished)
  ∧ hap_files w_gone hap = None
  ∧ hap_files (created w_gone (cmd_file f) (name_file f)) (next_hap w_gone)
    = Some (mkFiles (name_file f) (cmd_file f) None None None None)
  ∧ hid (next_hap w_gone) = pretty (get_next_hap_id w_gone)
  ∧ (∀ d, is_hap_dir w_gone d = true → (int d < get_next_hap_id w_gone)%N).
Proof.
  intros Hf Hdir Hact Hend w_gone.
  split; [| split; [| split; [| split; [| split]]]].
  - intros fuel Hfuel. rewrite (restart_unfold _ _ _ _ f) by done. unfold M_bind at 1.
    rewrite (poll_killed_ends n) by done. cbn [outcome world events].
    unfold M_bind. rewrite clean_one_eq by (apply (Hdir n); lia).
    cbn [outcome world events]. fold (without hap (env_run 0 n (killed hap w))).
    fold w_gone. rewrite run_no_check. done.
  - intros fuel Hfuel. rewrite (restart_unfold _ _ _ _ f) by done. unfold M_bind at 1.
    pose proof (poll_killed_unfinished n fuel 0 hap (killed hap w) Hfuel) as Hu.
    destruct (poll_killed fuel 0 (hid hap) (killed hap w)) as [out w' ev].
    simpl in *. rewrite Hu; [done | |].
    + intros k Hk. apply Hdir. lia.
    + done.
  - unfold hap_files, w_gone, without. simpl. apply lookup_delete_eq.
  - apply hap_files_created.
  - done.
  - intros d Hd. by apply get_next_hap_id_above, is_hap_dir_elem_of.
Qed.

End restarting.

(** C2, as stated, fails in its last part: restarting the only record,
    whose id is 1, gives the new record the id 1 again. *)
Lemma restart_reuses_id :
  hap_active w_single (mkHap "1") = false
  ∧ outcome (restart (mkOracle (Some 4300%Z) 0 "" 0) 0 (mkHap "1") w_single)
    = SysExit 0
  ∧ events (restart (mkOracle (Some 4300%Z) 0 "" 0) 0 (mkHap "1") w_single)
    = [Rmtree "1"; Mkdir "1"; Fork (mkHap "1")]
  ∧ hap_files (world (restart (mkOracle (Some 4300%Z) 0 "" 0) 0 (mkHap "1") w_single))
              (mkHap "1")
    = Some (mkFiles (Some "nap") "sleep 1" None None None None).
Proof. vm_compute. done. Qed.

Lemma restart_sequence_witness :
  restart (collab := slow_collaborators)
          (mkOracle (Some 4300%Z) 0 "" 0) 2 (mkHap "1") w_jobs
  = mkRes (SysExit 0)
          (mkWorld (<["5" := mkFiles (Some "nap") "sleep 60" None None None None]>
                      (delete "1" (fs w_jobs))) ∅)
          [KillProcTree (Some 4242%Z); Rmtree "1"; Mkdir "5"; Fork (mkHap "5")]
  ∧ outcome (restart (collab := slow_collaborators)
                     (mkOracle (Some 4300%Z) 0 "" 0) 1 (mkHap "1") w_jobs)
    = Unfinished.
Proof.
  destruct (@restart_sequence slow_collaborators (mkOracle (Some 4300%Z) 0 "" 0)
              (mkHap "1") w_jobs
              (mkFiles (Some "nap") "sleep 60" (Some 4242%Z) None (Some "") (Some ""))
              2) as (Hr & Hu & _).
  - vm_compute. reflexivity.
  - intros k Hk.
    assert (k = 0 ∨ k = 1 ∨ k = 2) as [-> | [-> | ->]] by lia; vm_compute; reflexivity.
  - intros k Hk. assert (k = 0 ∨ k = 1) as [-> | ->] by lia; vm_compute; reflexivity.
  - vm_compute. reflexivity.
  - split.
    + rewrite (Hr 2) by lia. vm_compute. reflexivity.
    + apply (Hu 1). lia.
Defined.

(** * Further properties of the registry and of the supervisor *)

(** ** Listing and creation *)

(** X1: [get_haps] lists exactly the entries of the registry whose name is
    a string of digits, each once, in ascending order of their numeric id;
    without such an entry the list is empty. *)
Theorem get_haps_listing (w : World) :
  NoDup (get_haps w)
  ∧ (∀ h, h ∈ get_haps w ↔ isdigit (hid h) = true ∧ is_Some (fs w !! hid h))
  ∧ StronglySorted (λ a b, (int (hid a) ≤ int (hid b))%N) (get_haps w)
  ∧ ((∀ d, is_Some (fs w !! d) → isdigit d = false) → get_haps w = []).
Proof.
  split; [apply NoDup_get_haps |]. split; [| split].
  - intros [d]. unfold get_haps. rewrite (list_elem_of_fmap_inj mkHap). simpl.
    apply elem_of_get_hap_dirs.
  - unfold get_haps.
    apply (StronglySorted_fmap mkHap int_le); [done | apply sorted_get_hap_dirs].
  - intros Hnone. unfold get_haps.
    destruct (_get_hap_dirs w) as [| d l] eqn:E; [done |].
    assert (d ∈ _get_hap_dirs w) as Hd by (rewrite E; apply list_elem_of_here).
    apply elem_of_get_hap_dirs in Hd as [Hdig Hf]. apply Hnone in Hf. congruence.
Qed.

(** The next id is one more than the id of any record directory that no
    other exceeds. *)
Lemma get_next_hap_id_of_max (w : World) (m : string) :
  is_hap_dir w m = true →
  (∀ d, is_hap_dir w d = true → (int d ≤ int m)%N) →
  get_next_hap_id w = (int m + 1)%N.
Proof.
  intros Hm Hmax. apply is_hap_dir_elem_of in Hm as Hin.
  pose proof (get_next_hap_id_above w m Hin) as Hlt.
  unfold get_next_hap_id in *.
  destruct (last (_get_hap_dirs w)) as [m' |] eqn:El.
  - apply last_Some_elem_of, is_hap_dir_elem_of, Hmax in El. lia.
  - apply last_None in El. rewrite El in Hin. by inversion Hin.
Qed.

Lemma is_hap_dir_created (w : World) (cmd : string) (name : option string)
    (d : string) :
  is_hap_dir (created w cmd name) d
  = bool_decide (d = hid (next_hap w)) || is_hap_dir w d.
Proof.
  unfold is_hap_dir, created. cbn [fs].
  destruct (decide (d = hid (next_hap w))) as [-> | Hne].
  - rewrite lookup_insert_eq, (bool_decide_eq_true_2 (_ = _)) by done.
    rewrite (bool_decide_eq_true_2 (is_Some _)) by (by eexists).
    unfold next_hap. simpl. by rewrite isdigit_pretty.
  - rewrite lookup_insert_ne by done. by rewrite (bool_decide_eq_false_2 (d = _)).
Qed.

Lemma int_next_hap (w : World) : int (hid (next_hap w)) = get_next_hap_id w.
Proof. unfold next_hap. simpl. apply int_pretty. Qed.

(** X2: [create_hap] never raises: the directory it makes does not exist
    yet. The id of the new record is above the id of every record there
    is, no other entry of the registry changes, the new record is the
    last of the listing, and the next id is one more than the one just
    given out. *)
Theorem create_hap_fresh_id (w : World) (cmd : string) (name : option string) :
  create_hap cmd name w
  = mkRes (Ret (next_hap w)) (created w cmd name) [Mkdir (hid (next_hap w))]
  ∧ fs w !! hid (next_hap w) = None
  ∧ hap_files (created w cmd name) (next_hap w) = Some (new_hap_files cmd name)
  ∧ (∀ d, is_hap_dir w d = true → (int d < int (hid (next_hap w)))%N)
  ∧ (∀ d, d ≠ hid (next_hap w) → fs (created w cmd name) !! d = fs w !! d)
  ∧ last (get_haps (created w cmd name)) = Some (next_hap w)
  ∧ get_next_hap_id (created w cmd name) = (get_next_hap_id w + 1)%N.
Proof.
  assert (∀ d, is_hap_dir w d = true → (int d < int (hid (next_hap w)))%N) as Habove.
  { intros d Hd. rewrite int_next_hap.
    by apply get_next_hap_id_above, is_hap_dir_elem_of. }
  assert (is_hap_dir (created w cmd name) (hid (next_hap w)) = true) as Hnew.
  { rewrite is_hap_dir_created. by rewrite bool_decide_eq_true_2. }
  assert (∀ d, is_hap_dir (created w cmd name) d = true →
               (int d ≤ int (hid (next_hap w)))%N) as Hmax.
  { intros d Hd. rewrite is_hap_dir_created in Hd.
    apply orb_true_iff in Hd as [Hd | Hd].
    - apply bool_decide_eq_true in Hd. by subst.
    - apply Habove in Hd. lia. }
  split; [apply create_hap_eq |]. split; [apply next_hap_dir_fresh |].
  split; [apply hap_files_created |]. split; [done |]. split; [| split].
  - intros d Hne. unfold created. cbn [fs]. by apply lookup_insert_ne.
  - unfold get_haps. rewrite fmap_last.
    destruct (last (_get_hap_dirs (created w cmd name))) as [m |] eqn:El.
    + simpl. f_equal.
      pose proof (last_Some_elem_of _ _ El) as Hm.
      apply is_hap_dir_elem_of in Hm. rewrite is_hap_dir_created in Hm.
      apply orb_true_iff in Hm as [Hm | Hm].
      { apply bool_decide_eq_true in Hm. by subst. }
      exfalso. apply Habove in Hm.
      pose proof (StronglySorted_last_max _ m (hid (next_hap w))
                    (sorted_get_hap_dirs _) El) as Hle.
      unfold int_le in Hle. apply is_hap_dir_elem_of in Hnew.
      specialize (Hle Hnew). lia.
    + apply last_None in El. apply is_hap_dir_elem_of in Hnew.
      rewrite El in Hnew. by inversion Hnew.
  - rewrite (get_next_hap_id_of_max _ (hid (next_hap w))) by done.
    by rewrite int_next_hap.
Qed.

Lemma get_hap_created_name (w : World) (cmd raw : string) :
  is_hap_dir (created w cmd (Some raw)) (strip raw) = false →
  get_hap (created w cmd (Some raw)) (strip raw) = Some (next_hap w).
Proof.
  assert (is_hap_dir (created w cmd (Some raw)) (hid (next_hap w)) = true) as Hnew.
  { rewrite is_hap_dir_created. by rewrite bool_decide_eq_true_2. }
  intros Hnd. unfold get_hap. rewrite bool_decide_eq_false_2.
  2: { intros Hin. apply is_hap_dir_elem_of in Hin. congruence. }
  assert (has_name (created w cmd (Some raw)) (strip raw) (hid (next_hap w)) = true)
    as Hname.
  { unfold has_name, created. cbn [fs]. rewrite lookup_insert_eq. simpl.
    by rewrite bool_decide_eq_true_2. }
  destruct (_get_hap_names_map (created w cmd (Some raw)) !! strip raw) as [d |] eqn:Hm.
  - apply names_map_Some in Hm as (Hd & _ & Hmax).
    specialize (Hmax _ Hnew Hname).
    rewrite is_hap_dir_created in Hd. apply orb_true_iff in Hd as [Hd | Hd].
    + apply bool_decide_eq_true in Hd. by subst.
    + apply is_hap_dir_elem_of, get_next_hap_id_above in Hd.
      rewrite int_next_hap in Hmax. lia.
  - pose proof (names_map_None _ _ Hm _ Hnew). congruence.
Qed.

(** X3: the record that [create_hap] has just made is found by
    [get_hap], under its id, and under its name as well when that name is
    not the name of a record directory: it has the highest id, so its
    entry of the name index replaces those of older records of the same
    name. *)
Theorem create_hap_then_get_hap (w : World) (cmd raw : string) :
  outcome (create_hap cmd (Some raw) w) = Ret (next_hap w)
  ∧ get_hap (world (create_hap cmd (Some raw) w)) (hid (next_hap w))
    = Some (next_hap w)
  ∧ (is_hap_dir (world (create_hap cmd (Some raw) w)) (strip raw) = false →
     get_hap (world (create_hap cmd (Some raw) w)) (strip raw) = Some (next_hap w)).
Proof.
  rewrite create_hap_eq. cbn [outcome world]. split; [done |]. split.
  - apply get_hap_of_dir. rewrite is_hap_dir_created.
    by rewrite bool_decide_eq_true_2.
  - apply get_hap_created_name.
Qed.

Example create_hap_then_get_hap_example :
  get_hap (created w_names "sleep 9" (Some "nap")) "nap" = Some (mkHap "11")
  ∧ get_hap w_names "nap" = Some (mkHap "10").
Proof. vm_compute. done. Qed.

(** ** The name index *)

Lemma all_digits_no_space (s : string) :
  all_digits s = true → lstrip s = s ∧ rstrip s = s.
Proof.
  induction s as [| c s IH]; [done |]. simpl. intros [Hc Hs]%andb_true_iff.
  assert (is_space_char c = false) as Hsp.
  { unfold is_digit_char in Hc. unfold is_space_char.
    apply andb_true_iff in Hc as [H1 H2].
    apply N.leb_le in H1, H2.
    destruct (9 <=? N_of_ascii c)%N eqn:E1, (N_of_ascii c <=? 13)%N eqn:E2,
             (28 <=? N_of_ascii c)%N eqn:E3, (N_of_ascii c <=? 32)%N eqn:E4;
      try done; try apply N.leb_le in E2; try apply N.leb_le in E4; lia. }
  rewrite Hsp. split; [done |]. destruct (IH Hs) as [_ ->].
  by destruct s.
Qed.

Lemma rstrip_rstrip (s : string) : rstrip (rstrip s) = rstrip s.
Proof.
  induction s as [| c s IH]; [done |]. simpl.
  destruct (rstrip s) as [| c' r] eqn:E.
  - destruct (is_space_char c) eqn:Hc; [done |]. simpl. by rewrite Hc.
  - change (rstrip (String c (String c' r)))
      with (match rstrip (String c' r) with
            | EmptyString =>
                if is_space_char c then EmptyString else String c EmptyString
            | r' => String c r'
            end).
    by rewrite IH.
Qed.

(** A string that does not begin with white space keeps its beginning
    when its end is stripped. *)
Lemma lstrip_rstrip (s : string) : lstrip s = s → lstrip (rstrip s) = rstrip s.
Proof.
  destruct s as [| c s]; [done |]. simpl.
  destruct (is_space_char c) eqn:Hc.
  - intros Hl. exfalso.
    assert (∀ t, (String.length (lstrip t) ≤ String.length t)%nat) as Hlen.
    { induction t as [| a t IHt]; simpl; [lia |].
      destruct (is_space_char a); simpl; lia. }
    specialize (Hlen s). rewrite Hl in Hlen. simpl in Hlen. lia.
  - intros _. destruct (rstrip s); simpl; by rewrite Hc.
Qed.

Lemma lstrip_lstrip (s : string) : lstrip (lstrip s) = lstrip s.
Proof.
  induction s as [| c s IH]; [done |]. simpl.
  destruct (is_space_char c) eqn:Hc; [done |]. simpl. by rewrite Hc.
Qed.

(** [s.strip().strip() == s.strip()] *)
Lemma strip_strip (s : string) : strip (strip s) = strip s.
Proof.
  unfold strip. rewrite (lstrip_rstrip (lstrip s) (lstrip_lstrip s)).
  apply rstrip_rstrip.
Qed.

(** X4: the name index files each record under the stripped content of
    its name marker: its keys are the names that some record directory
    carries, each mapped to a carrier with the highest id, and every key is
    free of white space at both ends. So an alias that begins or ends with
    white space never resolves: it is no record directory either. *)
Theorem names_map_stripped (w : World) (a : string) :
  (is_Some (_get_hap_names_map w !! a)
   ↔ ∃ d, is_hap_dir w d = true ∧ has_name w a d = true)
  ∧ (∀ d, _get_hap_names_map w !! a = Some d →
       is_hap_dir w d = true ∧ has_name w a d = true ∧ strip a = a)
  ∧ (strip a ≠ a → get_hap w a = None).
Proof.
  assert (∀ d, has_name w a d = true → strip a = a) as Hstrip.
  { intros d. unfold has_name. destruct (fs w !! d) as [f |]; [| done].
    destruct (name_file f) as [raw |]; [| done].
    intros <-%bool_decide_eq_true. apply strip_strip. }
  split; [| split].
  - split.
    + intros [d Hd]. exists d. by apply names_map_Some in Hd as (? & ? & _).
    + intros (d & Hd & Hn).
      destruct (_get_hap_names_map w !! a) as [d' |] eqn:Hm; [by eexists |].
      pose proof (names_map_None w a Hm d Hd). congruence.
  - intros d Hd. apply names_map_Some in Hd as (? & Hn & _). eauto.
  - intros Hne. unfold get_hap.
    rewrite bool_decide_eq_false_2.
    + destruct (_get_hap_names_map w !! a) as [d |] eqn:Hm; [| done].
      apply names_map_Some in Hm as (_ & Hn & _). apply Hstrip in Hn. congruence.
    + intros [Hd _]%elem_of_get_hap_dirs. apply Hne. unfold isdigit in Hd.
      destruct a as [| c a]; [done |].
      unfold strip. destruct (all_digits_no_space _ Hd) as [-> ->]. done.
Qed.

Example names_map_stripped_example :
  get_hap w_names "nap" = Some (mkHap "10") ∧ get_hap w_names " nap " = None.
Proof. vm_compute. done. Qed.

(** ** Deletion *)

Lemma clean_one_absent (hap : Hap) (verbose : bool) (w : World) :
  is_hap_dir w (hid hap) = false →
  clean_one hap verbose w
  = mkRes (Ret tt) w (if verbose then [Print (MsgDeletedHap (hid hap))] else []).
Proof.
  intros Hd. unfold clean_one, M_bind at 1, get_world. simpl.
  rewrite filter_none.
  - unfold M_bind. simpl. by destruct verbose.
  - intros h Hh%elem_of_get_haps Heq. rewrite Heq in Hh. congruence.
Qed.

(** What [clean_one] does, by whether the registry lists the record. *)
Lemma clean_one_cases (hap : Hap) (verbose : bool) (w : World) :
  clean_one hap verbose w
  = mkRes (Ret tt)
          (if is_hap_dir w (hid hap) then without hap w else w)
          ((if is_hap_dir w (hid hap) then [Rmtree (hid hap)] else [])
             ++ if verbose then [Print (MsgDeletedHap (hid hap))] else [])%list.
Proof.
  destruct (is_hap_dir w (hid hap)) eqn:Hd.
  - by rewrite clean_one_eq.
  - by rewrite clean_one_absent.
Qed.

Lemma clean_one_gone (hap : Hap) (verbose : bool) (w : World) :
  is_hap_dir (world (clean_one hap verbose w)) (hid hap) = false.
Proof.
  rewrite clean_one_cases. cbn [world].
  destruct (is_hap_dir w (hid hap)) eqn:Hd; [| done].
  unfold is_hap_dir, without. cbn [fs]. rewrite lookup_delete_eq.
  rewrite (bool_decide_eq_false_2 (is_Some None)) by apply is_Some_None.
  apply andb_false_r.
Qed.

Lemma clean_one_frame (hap : Hap) (verbose : bool) (w : World) (d : string) :
  d ≠ hid hap → fs (world (clean_one hap verbose w)) !! d = fs w !! d.
Proof.
  intros Hne. rewrite clean_one_cases. cbn [world].
  destruct (is_hap_dir w (hid hap)); [| done].
  unfold without. cbn [fs]. by apply lookup_delete_ne.
Qed.

(** X5: [clean_one] deletes the directory of the record that has the id
    of the hap it is given and nothing else. When the registry lists no
    such record (the directory is gone, or its name is not a string of
    digits) it deletes nothing and raises nothing, and still prints that
    the hap was deleted when it is verbose. A second [clean_one] changes
    nothing any more. *)
Theorem clean_one_effect (hap : Hap) (verbose : bool) (w : World) :
  clean_one hap verbose w
  = mkRes (Ret tt)
          (if is_hap_dir w (hid hap) then without hap w else w)
          ((if is_hap_dir w (hid hap) then [Rmtree (hid hap)] else [])
             ++ if verbose then [Print (MsgDeletedHap (hid hap))] else [])%list
  ∧ (∀ d, d ≠ hid hap → fs (world (clean_one hap verbose w)) !! d = fs w !! d)
  ∧ procs (world (clean_one hap verbose w)) = procs w
  ∧ is_hap_dir (world (clean_one hap verbose w)) (hid hap) = false
  ∧ clean_one hap verbose (world (clean_one hap verbose w))
    = mkRes (Ret tt) (world (clean_one hap verbose w))
            (if verbose then [Print (MsgDeletedHap (hid hap))] else []).
Proof.
  split; [apply clean_one_cases |]. split; [apply clean_one_frame |].
  split; [| split; [apply clean_one_gone |]].
  - rewrite clean_one_cases. cbn [world]. by destruct (is_hap_dir w (hid hap)).
  - apply clean_one_absent, clean_one_gone.
Qed.

Lemma size_remove_dirs (l : list Hap) (m : gmap string HapFiles) :
  NoDup l → (∀ h, h ∈ l → is_Some (m !! hid h)) →
  length l + size (remove_dirs l m) = size m.
Proof.
  unfold remove_dirs. revert m. induction l as [| h l IH]; intros m Hnd Hex.
  - done.
  - apply NoDup_cons in Hnd as [Hh Hnd]. cbn [foldl length].
    assert (length l + size (foldl (λ m' h0, delete (hid h0) m') (delete (hid h) m) l)
            = size (delete (hid h) m)) as Hl.
    { apply IH; [done |]. intros h' Hh'. rewrite lookup_delete_ne.
      - apply Hex. by apply list_elem_of_further.
      - intros Heq. apply (inj hid) in Heq. by subst. }
    rewrite map_size_delete_Some in Hl by (apply Hex; apply list_elem_of_here).
    assert (size m ≠ 0); [| lia].
    intros Hz. apply map_size_empty_inv in Hz. subst m.
    destruct (Hex h) as [f Hf]; [apply list_elem_of_here |].
    by rewrite lookup_empty in Hf.
Qed.

(** The next id is at least 1, and it does not grow when record
    directories only go. *)
Lemma get_next_hap_id_positive (w : World) : (1 ≤ get_next_hap_id w)%N.
Proof. unfold get_next_hap_id. destruct (last (_get_hap_dirs w)); lia. Qed.

Lemma get_next_hap_id_mono (w w' : World) :
  (∀ d, is_hap_dir w' d = true → is_hap_dir w d = true) →
  (get_next_hap_id w' ≤ get_next_hap_id w)%N.
Proof.
  intros Hsub. pose proof (get_next_hap_id_positive w) as Hpos.
  unfold get_next_hap_id at 1.
  destruct (last (_get_hap_dirs w')) as [m |] eqn:El; [| done].
  apply last_Some_elem_of, is_hap_dir_elem_of, Hsub, is_hap_dir_elem_of in El.
  apply get_next_hap_id_above in El. lia.
Qed.

Section deleting.
Context {collab : Collaborators}.

(** X6: the number that [clean] prints is the number of directories it
    has removed, and the registry has that many entries less; an entry
    whose name is not a string of digits is never removed, and what goes
    without [clean_all] goes with it as well. *)
Theorem clean_count (clean_all : bool) (w : World) :
  events (clean clean_all w)
  = (((λ h, Rmtree (hid h)) <$> cleaned clean_all w)
       ++ [Print (match cleaned clean_all w with
                  | [] => MsgNothingToClean
                  | _ => MsgDeletedFinished (length (cleaned clean_all w))
                  end)])%list
  ∧ length (cleaned clean_all w) + size (fs (world (clean clean_all w)))
    = size (fs w)
  ∧ (∀ d, isdigit d = false → fs (world (clean clean_all w)) !! d = fs w !! d)
  ∧ (∀ h, h ∈ cleaned false w → h ∈ cleaned true w).
Proof.
  rewrite clean_eq. cbn [events world fs]. split; [done |]. split; [| split].
  - apply size_remove_dirs.
    + apply NoDup_filter, NoDup_get_haps.
    + intros h Hh. apply elem_of_cleaned in Hh as [Hd _]. by apply is_hap_dir_files.
  - intros d Hd. rewrite remove_dirs_lookup. rewrite bool_decide_eq_false_2; [done |].
    intros [Hdir _]%elem_of_cleaned. unfold is_hap_dir in Hdir. simpl in Hdir.
    rewrite Hd in Hdir. done.
  - intros h [Hd Hc]%elem_of_cleaned. apply elem_of_cleaned. split; [done |].
    unfold to_clean in *. rewrite andb_false_r, orb_false_r in Hc. by rewrite Hc.
Qed.

(** X7: deleting never raises the next id: after [clean], and after
    [clean_one], [get_next_hap_id] is at most what it was (and at least
    1), so the id of a deleted record may be given out again. *)
Theorem deletion_keeps_next_id_down (clean_all verbose : bool) (hap : Hap) (w : World) :
  (1 ≤ get_next_hap_id (world (clean clean_all w)) ≤ get_next_hap_id w)%N
  ∧ (1 ≤ get_next_hap_id (world (clean_one hap verbose w)) ≤ get_next_hap_id w)%N.
Proof.
  split.
  - split; [apply get_next_hap_id_positive |].
    apply get_next_hap_id_mono. intros d Hd. by apply clean_survivor in Hd as [? _].
  - split; [apply get_next_hap_id_positive |].
    apply get_next_hap_id_mono. intros d Hd.
    assert (d ≠ hid hap) as Hne.
    { intros ->. pose proof (clean_one_gone hap verbose w). congruence. }
    unfold is_hap_dir in *. by rewrite <- (clean_one_frame hap verbose w d Hne).
Qed.

End deleting.

(** ** Kill *)

Section killing.
Context {collab : Collaborators}.
Variable helper : option Z → World → option Exn * World.

Lemma kill_loop_raising_inactive (hap : Hap) (haps : list Hap) (c : nat) (w : World) :
  hap_active w hap = false →
  kill_loop_raising helper (hap :: haps) c w = kill_loop_raising helper haps c w.
Proof.
  intros Ha. cbn [kill_loop_raising].
  rewrite (M_bind_ok get_world _ w w w []) by done. rewrite after_events_nil.
  by rewrite Ha.
Qed.

Lemma kill_loop_raising_active (hap : Hap) (haps : list Hap) (c : nat) (w : World) :
  hap_active w hap = true →
  kill_loop_raising helper (hap :: haps) c w
  = match (helper (hap_pid w hap) w).1 with
    | Some e => mkRes (Raise e) (helper (hap_pid w hap) w).2 [KillProcTree (hap_pid w hap)]
    | None => after_events [KillProcTree (hap_pid w hap)]
                (kill_loop_raising helper haps (S c) (helper (hap_pid w hap) w).2)
    end.
Proof.
  intros Ha. cbn [kill_loop_raising].
  rewrite (M_bind_ok get_world _ w w w []) by done. rewrite after_events_nil.
  rewrite Ha. unfold M_bind, call_raising. cbn [outcome world events].
  by destruct (helper (hap_pid w hap) w).1.
Qed.

(** The haps that are not active are passed over. *)
Lemma kill_loop_raising_skip (pre post : list Hap) (c : nat) (w : World) :
  (∀ x, x ∈ pre → hap_active w x = false) →
  kill_loop_raising helper (pre ++ post)%list c w = kill_loop_raising helper post c w.
Proof.
  induction pre as [| x pre IH]; intros Hpre; [done |].
  change ((x :: pre) ++ post)%list with (x :: (pre ++ post)%list).
  rewrite kill_loop_raising_inactive by apply Hpre, list_elem_of_here.
  apply IH. intros y Hy. by apply Hpre, list_elem_of_further.
Qed.

(** The calls of the loop: it ends with its counter raised by the number
    of calls, or with the exception of its last call. *)
Lemma kill_loop_raising_calls (haps : list Hap) (c : nat) (w : World) :
  ∃ pids : list (option Z),
    events (kill_loop_raising helper haps c w) = KillProcTree <$> pids
    ∧ (length pids ≤ length haps)%nat
    ∧ (outcome (kill_loop_raising helper haps c w) = Ret (c + length pids)
       ∨ ∃ e pid w', outcome (kill_loop_raising helper haps c w) = Raise e
                     ∧ last pids = Some pid ∧ (helper pid w').1 = Some e)
    ∧ (pids = [] ↔ ∀ h, h ∈ haps → hap_active w h = false)
    ∧ (pids = [] → world (kill_loop_raising helper haps c w) = w).
Proof.
  revert c w. induction haps as [| hap haps IH]; intros c w.
  - exists []. simpl. rewrite Nat.add_0_r.
    split; [done |]. split; [done |]. split; [by left |]. split; [| done].
    split; [| done]. intros _ h Hh. by apply elem_of_nil in Hh.
  - destruct (hap_active w hap) eqn:Ha.
    + rewrite kill_loop_raising_active by done.
      destruct (helper (hap_pid w hap) w) as [[e |] w1] eqn:Hh; cbn [fst snd].
      * exists [hap_pid w hap]. cbn [outcome events world].
        split; [done |]. split; [simpl; lia |].
        split; [right; exists e, (hap_pid w hap), w; by rewrite Hh |].
        split; [| done]. split; [done |].
        intros Hall. rewrite Hall in Ha by apply list_elem_of_here. done.
      * destruct (IH (S c) w1) as (pids & He & Hl & Ho & _).
        exists (hap_pid w hap :: pids). unfold after_events. cbn [outcome events world].
        rewrite He. split; [done |]. split; [simpl; lia |]. split.
        { destruct Ho as [Ho | (e & pid & w' & Ho & Hlast & Hr)].
          - left. rewrite Ho. f_equal. simpl. lia.
          - right. exists e, pid, w'. split; [done |]. split; [| done].
            destruct pids; [done |]. by rewrite last_cons, Hlast. }
        split; [| done]. split; [done |].
        intros Hall. rewrite Hall in Ha by apply list_elem_of_here. done.
    + rewrite kill_loop_raising_inactive by done.
      destruct (IH c w) as (pids & He & Hl & Ho & Hnone & Hw).
      exists pids. split; [done |]. split; [simpl; lia |]. split; [done |].
      split; [| done]. rewrite Hnone. split.
      * intros Hall h Hh. apply elem_of_cons in Hh as [-> | Hh]; [done | by apply Hall].
      * intros Hall h Hh. by apply Hall, list_elem_of_further.
Qed.

(** When a call disturbs no hap bound to another pid and makes no hap
    active, the calls are for the haps of the list that were active at
    the start, in the order of the list. *)
Lemma kill_loop_raising_exact (haps : list Hap) (c : nat) (w0 w : World) :
  (∀ pid w' h, hap_pid w' h ≠ pid →
     hap_active (helper pid w').2 h = hap_active w' h
     ∧ hap_pid (helper pid w').2 h = hap_pid w' h) →
  (∀ pid w' h, hap_active (helper pid w').2 h = true → hap_active w' h = true) →
  NoDup (active_pids w0 haps) →
  (∀ h, h ∈ haps →
     hap_active w h = hap_active w0 h
     ∧ (hap_active w0 h = true → hap_pid w h = hap_pid w0 h)) →
  ∃ pids : list (option Z),
    events (kill_loop_raising helper haps c w) = KillProcTree <$> pids
    ∧ pids `prefix_of` active_pids w0 haps
    ∧ (∀ n, outcome (kill_loop_raising helper haps c w) = Ret n →
         pids = active_pids w0 haps ∧ n = c + length (active_pids w0 haps)).
Proof.
  intros Hframe Hnever. revert c w.
  induction haps as [| hap haps IH]; intros c w Hnd Hinv.
  - exists []. simpl. split; [done |]. split; [done |].
    intros n [= <-]. split; [done |]. unfold active_pids. simpl. lia.
  - destruct (Hinv hap) as [Ha0 Hp0]; [apply list_elem_of_here |].
    assert (∀ h, h ∈ haps →
              hap_active w h = hap_active w0 h
              ∧ (hap_active w0 h = true → hap_pid w h = hap_pid w0 h)) as Hinv'.
    { intros h Hh. by apply Hinv, list_elem_of_further. }
    destruct (hap_active w hap) eqn:Ha.
    + assert (active_pids w0 (hap :: haps) = hap_pid w0 hap :: active_pids w0 haps)
        as Hcons.
      { unfold active_pids. rewrite filter_cons_True; [done |]. by rewrite <- Ha0. }
      rewrite Hcons in *. apply NoDup_cons in Hnd as [Hnotin Hnd].
      rewrite kill_loop_raising_active by done.
      rewrite Hp0 by done.
      destruct (helper (hap_pid w0 hap) w) as [[e |] w1] eqn:Hh; cbn [fst snd].
      * exists [hap_pid w0 hap]. cbn [outcome events]. split; [done |].
        split; [by apply prefix_cons, prefix_nil | done].
      * destruct (IH (S c) w1 Hnd) as (pids & He & Hpre & Hret).
        { intros h Hh'. destruct (Hinv' h Hh') as [Hact Hpid].
          destruct (hap_active w0 h) eqn:Hah.
          - assert (hap_pid w h ≠ hap_pid w0 hap) as Hne.
            { rewrite Hpid by done. intros Heq. apply Hnotin. rewrite <- Heq.
              unfold active_pids. apply list_elem_of_fmap. exists h. split; [done |].
              apply list_elem_of_filter. split; [by rewrite Hah | done]. }
            destruct (Hframe (hap_pid w0 hap) w h Hne) as [H1 H2].
            rewrite Hh in H1, H2. cbn [snd] in H1, H2.
            rewrite H1, H2, Hact. split; [done |]. intros _. by apply Hpid.
          - split; [| done].
            destruct (hap_active w1 h) eqn:Hw1; [| done].
            pose proof (Hnever (hap_pid w0 hap) w h) as Hn.
            rewrite Hh in Hn. cbn [snd] in Hn. rewrite Hn in Hact by done. done. }
        exists (hap_pid w0 hap :: pids). unfold after_events. cbn [outcome events].
        rewrite He. split; [done |]. split; [by apply prefix_cons |].
        intros n Hn. destruct (Hret n Hn) as [-> ->]. split; [done |]. simpl. lia.
    + assert (active_pids w0 (hap :: haps) = active_pids w0 haps) as Hcons.
      { unfold active_pids. rewrite filter_cons_False; [done |].
        rewrite <- Ha0. by intros []. }
      rewrite Hcons in *. rewrite kill_loop_raising_inactive by done. by apply IH.
Qed.

(** Over a helper that never raises, the loop is [kill_loop]. *)
Lemma kill_loop_raising_total (haps : list Hap) (c : nat) (w : World) :
  kill_loop_raising (λ pid w', (None, kill_proc_tree pid w')) haps c w
  = kill_loop haps c w.
Proof.
  revert c w. induction haps as [| hap haps IH]; intros c w; [done |].
  cbn [kill_loop_raising kill_loop]. unfold M_bind, get_world. cbn [outcome world events].
  destruct (hap_active w hap); cbn [outcome world events call_raising call_kill_proc_tree fst snd];
    by rewrite IH.
Qed.

(** X8: [kill] has no handler around [kill_proc_tree]. It makes one call
    per hap that it finds active, at most one per hap of the list, and
    none exactly when no hap of the list is active, in which case it
    changes nothing. It returns normally, and then prints when it is
    verbose the number of calls it has made, or that there are no active
    haps when it has made none, unless a call raises: then it ends with
    that exception right after that call and prints nothing. The first
    call is for the first active hap of the list, and when it raises no
    later hap is looked at. When a call disturbs no hap bound to another
    pid and makes no hap active, and the active haps of the list have
    pids of their own, the calls are for the haps that are active at
    the start, and the number printed is their number. Over a helper that
    never raises, [kill] is the [kill] that [restart] calls. *)
Theorem kill_raises_or_counts (haps : list Hap) (verbose : bool) (w : World) :
  let r := kill_raising helper haps verbose w in
  (∃ pids : list (option Z),
     (length pids ≤ length haps)%nat
     ∧ ((outcome r = Ret tt
         ∧ events r = ((KillProcTree <$> pids) ++ kill_message (length pids) verbose)%list)
        ∨ ∃ e pid w', outcome r = Raise e ∧ events r = KillProcTree <$> pids
                      ∧ last pids = Some pid ∧ (helper pid w').1 = Some e)
     ∧ (pids = [] ↔ ∀ h, h ∈ haps → hap_active w h = false)
     ∧ (pids = [] → world r = w))
  ∧ (∀ pre h post e,
       haps = (pre ++ h :: post)%list →
       (∀ x, x ∈ pre → hap_active w x = false) → hap_active w h = true →
       (helper (hap_pid w h) w).1 = Some e →
       r = mkRes (Raise e) (helper (hap_pid w h) w).2 [KillProcTree (hap_pid w h)])
  ∧ ((∀ pid w', (helper pid w').1 = None) → outcome r = Ret tt)
  ∧ ((∀ pid w' h, hap_pid w' h ≠ pid →
        hap_active (helper pid w').2 h = hap_active w' h
        ∧ hap_pid (helper pid w').2 h = hap_pid w' h) →
     (∀ pid w' h, hap_active (helper pid w').2 h = true → hap_active w' h = true) →
     NoDup (active_pids w haps) →
     outcome r = Ret tt →
     events r = ((KillProcTree <$> active_pids w haps)
                   ++ kill_message (length (active_pids w haps)) verbose)%list)
  ∧ kill_raising (λ pid w', (None, kill_proc_tree pid w')) haps verbose w
    = kill haps verbose w.
Proof.
  intros r.
  assert (∀ n, (if bool_decide (n ≠ 0) && verbose then console_print (MsgKilled n)
                else if verbose then console_print MsgNoActive else M_ret tt)
               = λ w', mkRes (Ret tt) w' (kill_message n verbose)) as Hmsg.
  { intros n. unfold kill_message. destruct n, verbose; done. }
  assert (r = M_bind (kill_loop_raising helper haps 0)
                (λ n w', mkRes (Ret tt) w' (kill_message n verbose)) w) as Hr.
  { unfold r, kill_raising. unfold M_bind. destruct (outcome _); [| done ..].
    by rewrite Hmsg. }
  split; [| split; [| split; [| split]]].
  - destruct (kill_loop_raising_calls haps 0 w) as (pids & He & Hl & Ho & Hnone & Hw).
    exists pids. split; [done |]. rewrite Hr. unfold M_bind. split; [| split; [done |]].
    + destruct Ho as [Ho | (e & pid & w' & Ho & Hlast & Hraise)]; rewrite Ho.
      * left. cbn [outcome events plus]. by rewrite He.
      * right. exists e, pid, w'. cbn [outcome events]. by rewrite He.
    + intros Hp. specialize (Hw Hp).
      destruct Ho as [Ho | (e & pid & w' & Ho & Hlast & Hraise)]; rewrite Ho; done.
  - intros pre h post e -> Hpre Ha Hraise. rewrite Hr. unfold M_bind.
    rewrite kill_loop_raising_skip by done.
    rewrite kill_loop_raising_active by done. by rewrite Hraise.
  - intros Htotal.
    destruct (kill_loop_raising_calls haps 0 w) as (pids & _ & _ & Ho & _).
    rewrite Hr. unfold M_bind.
    destruct Ho as [Ho | (e & pid & w' & Ho & Hlast & Hraise)]; rewrite Ho; [done |].
    by rewrite Htotal in Hraise.
  - intros Hframe Hnever Hnd Hret.
    destruct (kill_loop_raising_exact haps 0 w w Hframe Hnever Hnd)
      as (pids & He & _ & Hfull); [done |].
    rewrite Hr in Hret |- *. unfold M_bind in *.
    destruct (outcome (kill_loop_raising helper haps 0 w)) as [n | | |] eqn:Ho;
      try done.
    destruct (Hfull n eq_refl) as [-> ->]. cbn [events]. by rewrite He.
  - unfold kill_raising, kill. unfold M_bind. by rewrite kill_loop_raising_total.
Qed.

End killing.

(** [kill_proc_tree] as the spec describes it disturbs no hap bound to
    another pid and makes no hap active. *)
Lemma spec_kill_proc_tree_frame (pid : option Z) (w : World) (h : Hap) :
  (hap_pid w h ≠ pid →
   hap_active (spec_kill_proc_tree pid w) h = hap_active w h
   ∧ hap_pid (spec_kill_proc_tree pid w) h = hap_pid w h)
  ∧ (hap_active (spec_kill_proc_tree pid w) h = true → hap_active w h = true).
Proof.
  destruct pid as [p |]; [| done]. unfold hap_active, hap_status, hap_pid, hap_files.
  simpl. unfold spec_status_of.
  destruct (fs w !! hid h ≫= rc_file) as [c |]; [done |].
  destruct (fs w !! hid h ≫= pid_file) as [q |]; [| split; [done | done]].
  destruct (decide (q = p)) as [-> | Hne].
  - rewrite lookup_delete_eq. split; [by intros [] |].
    intros Ha. by apply bool_decide_eq_true in Ha as [|].
  - rewrite lookup_delete_ne by done. done.
Qed.

Lemma kill_raises_or_counts_witness :
  events (kill_raising (λ pid w, (None, spec_kill_proc_tree pid w))
                       (get_haps w_jobs) true w_jobs)
  = [KillProcTree (Some 4242%Z); Print (MsgKilled 1)].
Proof.
  destruct (kill_raises_or_counts (λ pid w, (None, spec_kill_proc_tree pid w))
              (get_haps w_jobs) true w_jobs) as (_ & _ & Hret & Hexact & _).
  rewrite Hexact.
  - vm_compute. reflexivity.
  - intros pid w h. apply spec_kill_proc_tree_frame.
  - intros pid w h. apply spec_kill_proc_tree_frame.
  - vm_compute. apply NoDup_singleton.
  - apply Hret. reflexivity.
Defined.

Example kill_example :
  events (kill (get_haps w_jobs) true w_jobs)
  = [KillProcTree (Some 4242%Z); Print (MsgKilled 1)]
  ∧ hap_active (world (kill (get_haps w_jobs) true w_jobs)) (mkHap "1") = false
  ∧ events (kill (get_haps w_single) true w_single) = [Print MsgNoActive]
  ∧ active_pids w_recycled (get_haps w_recycled) = [Some 8%Z]
  ∧ ∀ e, kill_raising (λ _ w, (Some e, w)) (get_haps w_recycled) true w_recycled
         = mkRes (Raise e) w_recycled [KillProcTree (Some 8%Z)].
Proof. vm_compute. done. Qed.

(** ** Pause and resume, again *)

(** X9: [pause_hap] and [resume_hap] never touch the registry, nor a
    process other than the one the record is bound to. Pausing twice is
    pausing once; a resume that went through cannot be repeated: the
    second one finds the process running, changes nothing and exits with
    status 1. *)
Theorem pause_resume_compose (h : Hap) (w : World) :
  fs (world (pause_hap h w)) = fs w
  ∧ fs (world (resume_hap h w)) = fs w
  ∧ (∀ q, hap_pid w h ≠ Some q →
       procs (world (pause_hap h w)) !! q = procs w !! q
       ∧ procs (world (resume_hap h w)) !! q = procs w !! q)
  ∧ outcome (pause_hap h (world (pause_hap h w))) = outcome (pause_hap h w)
  ∧ world (pause_hap h (world (pause_hap h w))) = world (pause_hap h w)
  ∧ (outcome (resume_hap h w) = Ret tt →
     resume_hap h (world (resume_hap h w))
     = mkRes (SysExit 1) (world (resume_hap h w)) [Print (MsgCannotResume h)]).
Proof.
  destruct (hap_proc w h) as [[pid st] |] eqn:Hp.
  - rewrite (pause_hap_found h w pid st Hp). cbn [world outcome fs procs].
    pose proof Hp as Hp'. apply hap_proc_Some in Hp' as [Hpid Hst].
    assert (hap_proc (mkWorld (fs w) (<[pid := STATUS_STOPPED]> (procs w))) h
            = Some (pid, STATUS_STOPPED)) as Hs.
    { apply hap_proc_Some. split; [done |]. simpl. apply lookup_insert_eq. }
    rewrite (pause_hap_found h _ pid STATUS_STOPPED Hs). cbn [world outcome fs procs].
    rewrite insert_insert_eq.
    destruct (decide (st = STATUS_STOPPED)) as [-> | Hst'].
    + rewrite (resume_hap_stopped h w pid Hp). cbn [world outcome fs procs].
      split; [done |]. split; [done |]. split.
      { intros q Hq. rewrite !lookup_insert_ne by congruence. done. }
      split; [done |]. split; [done |]. intros _.
      apply resume_hap_not_stopped. intros pid' Hc.
      apply hap_proc_Some in Hc as [Hc1 Hc2].
      change (hap_pid w h = Some pid') in Hc1.
      assert (pid' = pid) as -> by congruence.
      cbn [procs] in Hc2. rewrite lookup_insert_eq in Hc2. done.
    + rewrite resume_hap_not_stopped.
      2: { intros pid'. rewrite Hp. congruence. }
      cbn [world outcome fs procs].
      split; [done |]. split; [done |]. split.
      { intros q Hq. rewrite lookup_insert_ne by congruence. done. }
      done.
  - rewrite (pause_hap_not_found h w Hp). cbn [world outcome].
    rewrite (pause_hap_not_found h w Hp). cbn [world outcome].
    rewrite resume_hap_not_stopped by (intros pid; by rewrite Hp).
    cbn [world outcome]. done.
Qed.

(** ** The two flows of a launch *)

(** [run], by what the launching flow finds at the end of its wait. *)
Lemma run_cases (o : Oracle) (cmd : string) (name : option string) (check : bool)
    (w : World) :
  run o cmd name check w
  = if check then
      if bool_decide (is_Some (hap_rc (run_hap_at o (next_hap w) (progress o)
                                                  (created w cmd name)).2 (next_hap w)))
         && negb (bool_decide (hap_rc (run_hap_at o (next_hap w) (progress o)
                                                  (created w cmd name)).2 (next_hap w)
                               = Some 0%Z))
      then
        mkRes (SysExit 1)
              (run_hap_at o (next_hap w) (progress o) (created w cmd name)).2
              [Mkdir (hid (next_hap w)); Fork (next_hap w); Print MsgFastFailure;
               Print (MsgText
                        (hap_files (run_hap_at o (next_hap w) (progress o)
                                               (created w cmd name)).2 (next_hap w)
                         ≫= stderr_file))]
      else
        mkRes (SysExit 0)
              (run_hap_at o (next_hap w) (progress o) (created w cmd name)).2
              [Mkdir (hid (next_hap w)); Fork (next_hap w)]
    else
      mkRes (SysExit 0) (created w cmd name)
            [Mkdir (hid (next_hap w)); Fork (next_hap w)].
Proof.
  unfold run, M_bind. rewrite create_hap_eq. simpl.
  destruct check; [| done]. simpl.
  unfold _check_fast_failure, M_bind, wait_created_rc. simpl.
  by destruct (bool_decide _ && negb _).
Qed.

(** The exit code that the record of a launch shows is the one that
    [proc.wait()] returned. *)
Lemma launch_rc_is_retcode (o : Oracle) (w : World) (cmd : string)
    (name : option string) (n : nat) (code : Z) :
  hap_rc (run_hap_at o (next_hap w) n (created w cmd name)).2 (next_hap w) = Some code →
  code = retcode o.
Proof.
  destruct (popen_pid o) as [pid |] eqn:Hp.
  - rewrite (run_hap_at_spawned_rc o pid) by done. case_bool_decide; congruence.
  - destruct o as [p c t k]. simpl in Hp. subst p.
    rewrite run_hap_at_spawn_failure by (rewrite hap_files_created; by eexists).
    destruct n as [| [| n]]; files_simpl; congruence.
Qed.

(** X10: [run] never returns to its caller in the launching process: it
    creates one record, forks once and ends with [sys.exit]. The exit
    status is 1 exactly when the check was asked for and the record shows,
    at the end of the wait, an exit code other than 0; then the failure
    message and the error output are printed. In every other case,
    notably for a job that has exited with code 0, the status is 0 and
    nothing else is printed. *)
Theorem run_exit_status (o : Oracle) (cmd : string) (name : option string)
    (check : bool) (w : World) :
  let seen :=
    hap_rc (run_hap_at o (next_hap w) (progress o) (created w cmd name)).2
           (next_hap w) in
  (outcome (run o cmd name check w) = SysExit 1
   ↔ check = true ∧ ∃ code, seen = Some code ∧ code ≠ 0%Z)
  ∧ (outcome (run o cmd name check w) ≠ SysExit 1 →
     outcome (run o cmd name check w) = SysExit 0
     ∧ events (run o cmd name check w) = [Mkdir (hid (next_hap w)); Fork (next_hap w)])
  ∧ (outcome (run o cmd name check w) = SysExit 1 →
     ∃ text, events (run o cmd name check w)
             = [Mkdir (hid (next_hap w)); Fork (next_hap w); Print MsgFastFailure;
                Print (MsgText text)])
  ∧ (retcode o = 0%Z → outcome (run o cmd name check w) = SysExit 0)
  ∧ is_hap_dir (world (run o cmd name check w)) (hid (next_hap w)) = true.
Proof.
  intros seen. rewrite run_cases. fold seen.
  assert (∀ n, is_hap_dir (run_hap_at o (next_hap w) n (created w cmd name)).2
                          (hid (next_hap w)) = true) as Hdir.
  { intros n. unfold is_hap_dir. unfold next_hap at 1. cbn [hid].
    rewrite isdigit_pretty. cbn [andb]. apply bool_decide_eq_true.
    destruct (popen_pid o) as [pid |] eqn:Hp.
    - rewrite (run_hap_at_spawned o pid) by (rewrite ?hap_files_created; by eauto).
      destruct n as [| [| [| [| [| n]]]]]; files_simpl; by eexists.
    - destruct o as [p c t k]. simpl in Hp. subst p.
      rewrite run_hap_at_spawn_failure by (rewrite hap_files_created; by eexists).
      destruct n as [| [| n]]; files_simpl; by eexists. }
  destruct check.
  - destruct (bool_decide (is_Some seen) && negb (bool_decide (seen = Some 0%Z))) eqn:E.
    + cbn [outcome events world].
      apply andb_true_iff in E as [E1 E2]. apply bool_decide_eq_true in E1 as [code Hc].
      apply negb_true_iff, bool_decide_eq_false in E2.
      split; [| split; [done | split; [by eexists | split; [| apply Hdir]]]].
      * split; [| done]. intros _. split; [done |]. exists code. split; [done |].
        congruence.
      * intros Hz. exfalso. apply E2. rewrite Hc. f_equal.
        unfold seen in Hc. apply launch_rc_is_retcode in Hc. congruence.
    + cbn [outcome events world].
      split; [| split; [done | split; [done | split; [done | apply Hdir]]]].
      split; [done |]. intros (_ & code & Hc & Hne).
      rewrite Hc in E. rewrite (bool_decide_eq_true_2 (is_Some (Some code))) in E
        by (by eexists).
      rewrite bool_decide_eq_false_2 in E by congruence. done.
  - cbn [outcome events world].
    split; [| split; [done | split; [done | split; [done |]]]].
    + split; [done |]. by intros [? _].
    + apply (Hdir 0).
Qed.

Example run_exit_status_example :
  outcome (run (mkOracle (Some 7%Z) 0 "" 5) "true" None true (mkWorld ∅ ∅)) = SysExit 0
  ∧ outcome (run (mkOracle (Some 7%Z) 2 "no" 5) "false" None true (mkWorld ∅ ∅))
    = SysExit 1
  ∧ outcome (run (mkOracle (Some 7%Z) 2 "no" 3) "false" None true (mkWorld ∅ ∅))
    = SysExit 0
  ∧ outcome (run (mkOracle (Some 7%Z) 2 "no" 5) "false" None false (mkWorld ∅ ∅))
    = SysExit 0.
Proof. vm_compute. done. Qed.


Lemma update_files_frame (h : Hap) (g : HapFiles → HapFiles) (w : World) :
  (∀ f, name_file (g f) = name_file f) → (∀ f, cmd_file (g f) = cmd_file f) →
  (∀ d, d ≠ hid h → fs (update_files h g w) !! d = fs w !! d)
  ∧ procs (update_files h g w) = procs w
  ∧ hap_name (update_files h g w) h = hap_name w h
  ∧ hap_cmd (update_files h g w) h = hap_cmd w h.
Proof.
  intros Hn Hc. split; [| split; [done | split]].
  - intros d Hd. unfold update_files. cbn [fs]. by apply lookup_alter_ne.
  - unfold hap_name. rewrite hap_files_update_files.
    destruct (hap_files w h) as [f |]; simpl; [apply Hn | done].
  - unfold hap_cmd. rewrite hap_files_update_files.
    destruct (hap_files w h) as [f |]; simpl; [by rewrite Hc | done].
Qed.

Lemma run_hap_step_frame_inv (o : Oracle) (h : Hap) (w : World) (c : Pc * World) :
  run_hap_frame_inv o h w c → run_hap_frame_inv o h w (run_hap_step o h c).
Proof.
  destruct c as [pc w']. unfold run_hap_frame_inv. cbn [fst snd].
  intros (Hfs & Hps & Hname & Hcmd & Hpid).
  destruct pc; unfold run_hap_step; cbn [fst snd].
  - destruct (hap_files w' h) as [f |]; cbn [fst snd].
    + destruct (update_files_frame h set_sinks w') as (H1 & H2 & H3 & H4); [done.. |].
      rewrite H2, H3, H4. split; [| split; [done | split; [done | split; [done |]]]].
      * intros d Hd. by rewrite H1, Hfs.
      * by intros pid [? | ?].
    + split; [done |]. split; [done |]. split; [done |]. split; [done |].
      by intros pid [? | ?].
  - destruct (popen_pid o) as [pid |] eqn:Hp; cbn [fst snd fs procs].
    + split; [done |]. split; [| split; [done | split; [done |]]].
      * intros q Hq. rewrite lookup_insert_ne by congruence. by apply Hps.
      * intros pid' [[= ->] | ?]; done.
    + split; [done |]. split; [done |]. split; [done |]. split; [done |].
      by intros pid [? | ?].
  - destruct (update_files_frame h (set_pid pid) w') as (H1 & H2 & H3 & H4); [done.. |].
    unfold bind_pid. rewrite H2, H3, H4.
    split; [| split; [done | split; [done | split; [done |]]]].
    + intros d Hd. by rewrite H1, Hfs.
    + intros pid' [? | [= ->]]; [done |]. apply Hpid. by left.
  - destruct (update_files_frame h (set_stderr (stderr_text o))
                (mkWorld (fs w') (delete pid (procs w'))))
      as (H1 & H2 & H3 & H4); [done.. |].
    rewrite H2, H3, H4. cbn [procs].
    split; [| split; [| split; [done | split; [done |]]]].
    + intros d Hd. rewrite H1 by done. cbn [fs]. by apply Hfs.
    + intros q Hq. rewrite lookup_delete_ne; [by apply Hps |].
      intros ->. apply Hq, Hpid. by right.
    + by intros pid' [? | ?].
  - destruct (hap_files w' h) as [f |]; cbn [fst snd].
    + destruct (update_files_frame h (set_rc code) w') as (H1 & H2 & H3 & H4);
        [done.. |].
      rewrite H2, H3, H4. split; [| split; [done | split; [done | split; [done |]]]].
      * intros d Hd. by rewrite H1, Hfs.
      * by intros pid [? | ?].
    + split; [done |]. split; [done |]. split; [done |]. split; [done |].
      by intros pid [? | ?].
  - done.
  - done.
Qed.

(** X11: whatever happens, the detached flow of a launch changes no entry
    of the registry other than its own record, keeps the name and the
    command of that record, and changes no entry of the process table
    other than the one of the process that [Popen] gave it. *)
Theorem run_hap_frame (o : Oracle) (h : Hap) (w : World) (n : nat) :
  (∀ d, d ≠ hid h → fs (run_hap_at o h n w).2 !! d = fs w !! d)
  ∧ (∀ q, popen_pid o ≠ Some q → procs (run_hap_at o h n w).2 !! q = procs w !! q)
  ∧ hap_name (run_hap_at o h n w).2 h = hap_name w h
  ∧ hap_cmd (run_hap_at o h n w).2 h = hap_cmd w h.
Proof.
  assert (run_hap_frame_inv o h w (run_hap_at o h n w)) as (H1 & H2 & H3 & H4 & _).
  { unfold run_hap_at. induction n as [| n IH]; simpl.
    - repeat split; try done. by intros pid [? | ?].
    - by apply run_hap_step_frame_inv. }
  done.
Qed.

(** X12: when the directory of the record is gone (the record was deleted
    between [create_hap] and the detached flow), [run_hap] raises at the
    opening of the sinks: no process is spawned and nothing is written. *)
Theorem run_hap_without_directory (o : Oracle) (h : Hap) (w : World) (n : nat) :
  hap_files w h = None →
  run_hap_at o h (S n) w = (Raised FileNotFoundError, w)
  ∧ run_hap o h w = (Raised FileNotFoundError, w).
Proof.
  intros Hf.
  assert (run_hap_step o h (AtOpen, w) = (Raised FileNotFoundError, w)) as H1.
  { unfold run_hap_step. cbn [fst snd]. by rewrite Hf. }
  assert (∀ k, run_hap_at o h (S k) w = (Raised FileNotFoundError, w)) as Hall.
  { intros k. unfold run_hap_at. replace (S k) with (k + 1) by lia.
    rewrite Nat.iter_add. cbn [Nat.iter nat_rect]. rewrite H1.
    by apply run_hap_at_stuck. }
  split; [apply Hall |]. apply (Hall 4).
Qed.

Lemma run_hap_without_directory_witness :
  run_hap_at (mkOracle (Some 4300%Z) 0 "" 0) (mkHap "7") 3 w_jobs
  = (Raised FileNotFoundError, w_jobs)
  ∧ run_hap (mkOracle (Some 4300%Z) 0 "" 0) (mkHap "7") w_jobs
    = (Raised FileNotFoundError, w_jobs).
Proof.
  apply (run_hap_without_directory (mkOracle (Some 4300%Z) 0 "" 0) (mkHap "7") w_jobs 2).
  vm_compute. reflexivity.
Defined.

(** ** Restart, again *)

Section restarting_again.
Context {collab : Collaborators}.

(** The loop ends with an [AttributeError] when the alias stops resolving:
    [get_hap] returns [None], which has no [active]. *)
Lemma poll_killed_vanishes (n fuel i : nat) (hap : Hap) (w : World) :
  (n ≤ fuel)%nat →
  (∀ k, k < n → is_hap_dir (env_run i k w) (hid hap) = true
                ∧ hap_active (env_run i k w) hap = true) →
  get_hap (env_run i n w) (hid hap) = None →
  poll_killed fuel i (hid hap) w = mkRes (Raise AttributeError) (env_run i n w) [].
Proof.
  revert fuel i w. induction n as [| n IH]; intros fuel i w Hfuel Hact Hend.
  - destruct fuel; simpl in *; by rewrite Hend.
  - destruct fuel as [| fuel]; [lia |]. simpl.
    destruct (Hact 0) as [Hd Ha]; [lia |]. simpl in Hd, Ha.
    rewrite get_hap_of_dir by done.
    assert (hap_active w (mkHap (hid hap)) = true) as -> by (by destruct hap).
    apply IH.
    + lia.
    + intros k Hk. apply (Hact (S k)). lia.
    + done.
Qed.

(** X13: when the record stops resolving while [restart] polls (its
    directory is deleted by someone else and no record carries its id as a
    name), [restart] ends with an [AttributeError] right after the kill:
    it deletes nothing and launches nothing. *)
Theorem restart_record_vanishes (o : Oracle) (hap : Hap) (w : World) (f : HapFiles)
    (n : nat) :
  hap_files w hap = Some f →
  (∀ k, k < n → is_hap_dir (env_run 0 k (killed hap w)) (hid hap) = true
                ∧ hap_active (env_run 0 k (killed hap w)) hap = true) →
  get_hap (env_run 0 n (killed hap w)) (hid hap) = None →
  ∀ fuel, (n ≤ fuel)%nat →
    restart o fuel hap w
    = mkRes (Raise AttributeError) (env_run 0 n (killed hap w))
            (if hap_active w hap then [KillProcTree (hap_pid w hap)] else []).
Proof.
  intros Hf Hact Hend fuel Hfuel.
  rewrite (restart_unfold _ _ _ _ f) by done. unfold M_bind at 1.
  rewrite (poll_killed_vanishes n) by done. unfold after_events.
  cbn [outcome world events]. by rewrite app_nil_r.
Qed.

(** The result of [restart] when the loop ends. *)
Lemma restart_ends (o : Oracle) (hap : Hap) (w : World) (f : HapFiles) (n fuel : nat) :
  hap_files w hap = Some f →
  (∀ k, (k ≤ n)%nat → is_hap_dir (env_run 0 k (killed hap w)) (hid hap) = true) →
  (∀ k, k < n → hap_active (env_run 0 k (killed hap w)) hap = true) →
  hap_active (env_run 0 n (killed hap w)) hap = false →
  (n ≤ fuel)%nat →
  world (restart o fuel hap w)
  = created (without hap (env_run 0 n (killed hap w))) (cmd_file f) (name_file f).
Proof.
  intros Hf Hdir Hact Hend Hfuel.
  rewrite (restart_unfold _ _ _ _ f) by done. unfold M_bind at 1.
  rewrite (poll_killed_ends n) by done. cbn [outcome world events].
  unfold M_bind. rewrite clean_one_eq by (apply (Hdir n); lia).
  cbn [outcome world events]. fold (without hap (env_run 0 n (killed hap w))).
  by rewrite run_no_check.
Qed.

(** X14: after a [restart] that has gone through, the name of the
    restarted record resolves to the new record (as long as the name is not
    the name of a record directory), and so does the new id; every entry
    other than the old and the new record is as the polling left it. *)
Theorem restart_then_get_hap (o : Oracle) (hap : Hap) (w : World) (f : HapFiles)
    (raw : string) (n fuel : nat) :
  hap_files w hap = Some f → name_file f = Some raw →
  (∀ k, (k ≤ n)%nat → is_hap_dir (env_run 0 k (killed hap w)) (hid hap) = true) →
  (∀ k, k < n → hap_active (env_run 0 k (killed hap w)) hap = true) →
  hap_active (env_run 0 n (killed hap w)) hap = false →
  (n ≤ fuel)%nat →
  let new := next_hap (without hap (env_run 0 n (killed hap w))) in
  get_hap (world (restart o fuel hap w)) (hid new) = Some new
  ∧ hap_files (world (restart o fuel hap w)) new
    = Some (new_hap_files (cmd_file f) (Some raw))
  ∧ (is_hap_dir (world (restart o fuel hap w)) (strip raw) = false →
     get_hap (world (restart o fuel hap w)) (strip raw) = Some new)
  ∧ (∀ d, d ≠ hid hap → d ≠ hid new →
       fs (world (restart o fuel hap w)) !! d
       = fs (env_run 0 n (killed hap w)) !! d).
Proof.
  intros Hf Hraw Hdir Hact Hend Hfuel new.
  rewrite (restart_ends o hap w f n fuel) by done. rewrite Hraw. fold new.
  split; [| split; [| split]].
  - apply get_hap_of_dir. rewrite is_hap_dir_created.
    by rewrite bool_decide_eq_true_2.
  - apply hap_files_created.
  - apply get_hap_created_name.
  - intros d Hd Hnew. unfold created, without. cbn [fs].
    rewrite lookup_insert_ne by done. by apply lookup_delete_ne.
Qed.

End restarting_again.

Lemma restart_record_vanishes_witness :
  restart (collab := vanishing_collaborators)
          (mkOracle (Some 4300%Z) 0 "" 0) 1 (mkHap "1") w_jobs
  = mkRes (Raise AttributeError) (mkWorld ∅ (procs w_jobs))
          [KillProcTree (Some 4242%Z)].
Proof.
  rewrite (@restart_record_vanishes vanishing_collaborators
             (mkOracle (Some 4300%Z) 0 "" 0) (mkHap "1") w_jobs
             (mkFiles (Some "nap") "sleep 60" (Some 4242%Z) None (Some "") (Some ""))
             1).
  - vm_compute. reflexivity.
  - vm_compute. reflexivity.
  - intros k Hk. assert (k = 0) as -> by lia. vm_compute. done.
  - vm_compute. reflexivity.
  - lia.
Defined.

Lemma restart_then_get_hap_witness :
  get_hap (world (restart (collab := slow_collaborators)
                          (mkOracle (Some 4300%Z) 0 "" 0) 2 (mkHap "1") w_jobs)) "nap"
  = Some (mkHap "5").
Proof.
  destruct (@restart_then_get_hap slow_collaborators (mkOracle (Some 4300%Z) 0 "" 0)
              (mkHap "1") w_jobs
              (mkFiles (Some "nap") "sleep 60" (Some 4242%Z) None (Some "") (Some ""))
              "nap" 2 2) as (_ & _ & Hname & _).
  - vm_compute. reflexivity.
  - reflexivity.
  - intros k Hk.
    assert (k = 0 ∨ k = 1 ∨ k = 2) as [-> | [-> | ->]] by lia; vm_compute; reflexivity.
  - intros k Hk. assert (k = 0 ∨ k = 1) as [-> | ->] by lia; vm_compute; reflexivity.
  - vm_compute. reflexivity.
  - lia.
  - apply Hname. vm_compute. reflexivity.
Defined.
